(** * AxisHelper and TextMeasurementService: a shallow embedding

    Sources:
    - [src/Clients/Visuals/visuals/funnelChart.ts], module [AxisHelper];
    - [src/Clients/VisualsCommon/services/textMeasurementService.ts],
      module [TextMeasurementService].

    JavaScript numbers are IEEE 754 binary64 values.  They are modelled by
    the executable specification [spec_float] of the standard library,
    instantiated at precision 53 and maximal exponent 1024, so that [NaN],
    the infinities, signed zeros and rounding behave as in the source.

    Two kinds of number are taken exactly instead (module [XNum]): the tick
    count handed to the tick selectors and the width budget handed to the
    text truncation.  Either may be any number, fractional, [NaN] or
    infinite; the code compares it, takes it one up or down, or divides a
    length by it and rounds down. *)

From Stdlib Require Import ZArith List Bool Lia String Ascii QArith Qround.
From Stdlib Require Import Floats.SpecFloat.
Import ListNotations.

Local Open Scope Z_scope.

(** ** Numbers *)

Module Num.

Definition number := spec_float.

Definition prec : Z := 53.
Definition emax : Z := 1024.

(** The double nearest to an integer (exact below 2^53). *)
Definition ofZ (z : Z) : number := binary_normalize prec emax z 0 false.

Definition add : number -> number -> number := SFadd prec emax.
Definition sub : number -> number -> number := SFsub prec emax.
Definition mul : number -> number -> number := SFmul prec emax.
Definition div : number -> number -> number := SFdiv prec emax.
Definition neg : number -> number := SFopp.

(** A decimal literal [p/q] of the source: the correctly rounded quotient
    of two exactly representable integers, which is how the literal is
    read. *)
Definition lit (p q : Z) : number := div (ofZ p) (ofZ q).

Definition NaN : number := S754_nan.
Definition POSITIVE_INFINITY : number := S754_infinity false.
Definition NEGATIVE_INFINITY : number := S754_infinity true.
(** [Number.MAX_VALUE] = (2^53 - 1) * 2^971. *)
Definition MAX_VALUE : number := S754_finite false (2 ^ 53 - 1) 971.

(** [isNaN] *)
Definition isNaN (x : number) : bool :=
  match x with S754_nan => true | _ => false end.

Definition isFinite (x : number) : bool :=
  match x with S754_nan | S754_infinity _ => false | _ => true end.

(** [===], [<], [<=], [>], [>=] on numbers: every comparison with [NaN]
    is false, and the two zeros are equal. *)
Definition eqb : number -> number -> bool := SFeqb.
Definition ltb : number -> number -> bool := SFltb.
Definition leb : number -> number -> bool := SFleb.
Definition gtb (x y : number) : bool := SFltb y x.
Definition geb (x y : number) : bool := SFleb y x.

(** [Math.abs] *)
Definition abs : number -> number := SFabs.

(** The sign of a number: [true] for negative numbers and [-0]. *)
Definition signbit (x : number) : bool :=
  match x with
  | S754_zero s | S754_infinity s | S754_finite s _ _ => s
  | S754_nan => false
  end.

Definition isNegZero (x : number) : bool :=
  match x with S754_zero true => true | _ => false end.

(** [Math.min] of two numbers: [NaN] if either is, and [-0] below [+0]. *)
Definition min (x y : number) : number :=
  if isNaN x || isNaN y then NaN
  else if ltb x y then x
  else if ltb y x then y
  else if isNegZero x then x else y.

(** [Math.max] of two numbers: [NaN] if either is, and [+0] above [-0]. *)
Definition max (x y : number) : number :=
  if isNaN x || isNaN y then NaN
  else if ltb x y then y
  else if ltb y x then x
  else if isNegZero x then y else x.

(** The order of the numbers other than [NaN], read off [SFcompare]: the
    sign class first, then exponent and mantissa, both reversed below
    zero.  The two zeros share a key. *)
Definition orderKey (x : number) : Z * Z * Z :=
  match x with
  | S754_infinity true => (-2, 0, 0)
  | S754_finite true m e => (-1, - e, Zneg m)
  | S754_zero _ | S754_nan => (0, 0, 0)
  | S754_finite false m e => (1, e, Zpos m)
  | S754_infinity false => (2, 0, 0)
  end.

Definition lexCompare (a b : Z * Z * Z) : comparison :=
  let '(a1, a2, a3) := a in
  let '(b1, b2, b3) := b in
  match a1 ?= b1 with
  | Eq => match a2 ?= b2 with
          | Eq => a3 ?= b3
          | c => c
          end
  | c => c
  end.

Definition keyLt (a b : Z * Z * Z) : Prop :=
  let '(a1, a2, a3) := a in
  let '(b1, b2, b3) := b in
  a1 < b1 \/ (a1 = b1 /\ (a2 < b2 \/ (a2 = b2 /\ a3 < b3))).

End Num.

Declare Scope num_scope.
Delimit Scope num_scope with num.
Infix "+" := Num.add : num_scope.
Infix "-" := Num.sub : num_scope.
Infix "*" := Num.mul : num_scope.
Infix "/" := Num.div : num_scope.
Infix "===" := Num.eqb (at level 70, no associativity) : num_scope.
Infix "<?" := Num.ltb : num_scope.
Infix "<=?" := Num.leb : num_scope.
Infix ">?" := Num.gtb : num_scope.
Infix ">=?" := Num.geb : num_scope.

(** ** Numbers taken exactly

    A number that is only compared, moved by one, or used to divide an
    array length: a rational, [NaN] or one of the infinities.  The finite
    numbers are compared and computed with exactly, so [len / maxTicks] is
    the exact quotient before [Math.floor] rounds it down.  At a whole
    count that is what binary64 division followed by [Math.floor] gives;
    at a fractional count binary64 can round a quotient that falls short
    of a whole number by less than half a unit in the last place up to
    that number. *)

Module XNum.

Inductive xnum := XNaN | XNegInf | XFin (q : Q) | XPosInf.

Definition ofZ (z : Z) : xnum := XFin (inject_Z z).

(** The order of two numbers; there is none when either is [NaN]. *)
Definition compare (x y : xnum) : option comparison :=
  match x, y with
  | XNaN, _ | _, XNaN => None
  | XNegInf, XNegInf => Some Eq
  | XNegInf, _ => Some Lt
  | _, XNegInf => Some Gt
  | XPosInf, XPosInf => Some Eq
  | XPosInf, _ => Some Gt
  | _, XPosInf => Some Lt
  | XFin p, XFin q => Some (p ?= q)%Q
  end.

(** [===], [<], [<=], [>], [>=]: every comparison with [NaN] is false. *)
Definition eqb (x y : xnum) : bool :=
  match compare x y with Some Eq => true | _ => false end.
Definition ltb (x y : xnum) : bool :=
  match compare x y with Some Lt => true | _ => false end.
Definition leb (x y : xnum) : bool :=
  match compare x y with Some Lt | Some Eq => true | _ => false end.
Definition gtb (x y : xnum) : bool := ltb y x.
Definition geb (x y : xnum) : bool := leb y x.

Definition isNaN (x : xnum) : bool :=
  match x with XNaN => true | _ => false end.

Definition neg (x : xnum) : xnum :=
  match x with
  | XNaN => XNaN
  | XNegInf => XPosInf
  | XFin q => XFin (- q)
  | XPosInf => XNegInf
  end.

(** [x + y]: [NaN] for the sum of opposite infinities. *)
Definition add (x y : xnum) : xnum :=
  match x, y with
  | XNaN, _ | _, XNaN => XNaN
  | XNegInf, XPosInf | XPosInf, XNegInf => XNaN
  | XNegInf, _ | _, XNegInf => XNegInf
  | XPosInf, _ | _, XPosInf => XPosInf
  | XFin p, XFin q => XFin (p + q)
  end.

Definition sub (x y : xnum) : xnum := add x (neg y).

(** [Math.floor(n / d)] for an array length [n]; [None] when the quotient
    is not finite: [NaN] for a divisor that is [NaN], and an infinity or
    [NaN] for a zero divisor.  A length divided by an infinity is zero. *)
Definition floorOfQuotient (n : Z) (d : xnum) : option Z :=
  match d with
  | XNaN => None
  | XNegInf | XPosInf => Some 0
  | XFin q =>
      if Qeq_bool q 0 then None else Some (Qfloor (inject_Z n / q))
  end.

End XNum.

Declare Scope xnum_scope.
Delimit Scope xnum_scope with xnum.
Infix "+" := XNum.add : xnum_scope.
Infix "-" := XNum.sub : xnum_scope.
Infix "===" := XNum.eqb (at level 70, no associativity) : xnum_scope.
Infix "<?" := XNum.ltb : xnum_scope.
Infix "<=?" := XNum.leb : xnum_scope.
Infix ">?" := XNum.gtb : xnum_scope.
Infix ">=?" := XNum.geb : xnum_scope.

(** ** AxisHelper *)

Module AxisHelper.

Import Num.
Import XNum(xnum, XNaN, XNegInf, XFin, XPosInf).

(** [NumberRange]: the [{min, max}] pair handed to the normalizer. *)
Record NumberRange := mkRange { min : number; max : number }.

(** [export var fallBackDomain = [0, 10];] *)
Definition fallBackDomain : number * number := (ofZ 0, ofZ 10).

Definition DefaultBestTickCount : number := ofZ 3.
Definition MinTickCount : Z := 2.

(** [normalizeLinearDomain] as a function from ranges to ranges: the
    source assigns to the fields of its argument and returns it. *)
Definition normalizeLinearDomain (domain : NumberRange) : NumberRange :=
  if isNaN (min domain) || isNaN (max domain) then
    mkRange (fst fallBackDomain) (snd fallBackDomain)
  else if ((min domain === ofZ 0) && (max domain === ofZ 0))%num then
    mkRange (min domain) (snd fallBackDomain)
  else if (min domain === max domain)%num then
    mkRange
      (if (min domain <? ofZ 0)%num
       then (min domain * lit 12 10)%num else (min domain * lit 8 10)%num)
      (if (max domain <? ofZ 0)%num
       then (max domain * lit 8 10)%num else (max domain * lit 12 10)%num)
  else if ((abs (min domain) <? lit 1 10000)
           && (min domain / (max domain - min domain) <? lit 1 10000))%num
  then mkRange (ofZ 0) (max domain)
  else domain.


(** *** Recommended tick counts *)

Definition getRecommendedNumberOfTicksForXAxis (availableWidth : number)
  : number :=
  if (availableWidth <? ofZ 250)%num then ofZ 3
  else if (availableWidth <? ofZ 500)%num then ofZ 5
  else ofZ 8.

Definition getRecommendedNumberOfTicksForYAxis (availableWidth : number)
  : number :=
  if (availableWidth <? ofZ 150)%num then ofZ 3
  else if (availableWidth <? ofZ 300)%num then ofZ 5
  else ofZ 8.

(** The part of a measure's metadata that [hasNonIntegerData] reads: an
    array entry may be missing, a column may have no [type], and a type may
    leave [integer] unset. *)
Record ValueType := mkValueType { integer : option bool }.
Record DataViewMetadataColumn :=
  mkColumn { type : option ValueType }.

Definition truthy (b : option bool) : bool :=
  match b with Some true => true | _ => false end.

Fixpoint hasNonIntegerData
  (valuesMetadata : list (option DataViewMetadataColumn)) : bool :=
  match valuesMetadata with
  | [] => false
  | currentMetadata :: rest =>
      match currentMetadata with
      | Some c =>
          match type c with
          | Some t =>
              if negb (truthy (integer t)) then true
              else hasNonIntegerData rest
          | None => hasNonIntegerData rest
          end
      | None => hasNonIntegerData rest
      end
  end.

(** [getBestNumberOfTicks]; the two [debug.assert] calls do not change
    the value returned. *)
Definition getBestNumberOfTicks (min max : number)
  (valuesMetadata : list (option DataViewMetadataColumn))
  (maxTickCount : number) (isDateTime : bool) : number :=
  if isNaN min || isNaN max then DefaultBestTickCount
  else if ((maxTickCount <=? ofZ 1)
           || ((max <=? ofZ 1) && (min >=? ofZ (-1))))%num
  then maxTickCount
  else if (min === max)%num then
    if isDateTime then ofZ 1 else DefaultBestTickCount
  else if hasNonIntegerData valuesMetadata then maxTickCount
  else Num.min (max - min + ofZ 1)%num maxTickCount.

(** *** Tick values

    Array lengths and indices are integers, in [Z].  The tick count
    [maxTicks] handed to the tick selectors is any number ([createScale]
    hands the ordinal selector the quotient of a pixel span by a bar
    thickness): it is an [xnum]. *)

Definition len {A} (l : list A) : Z := Z.of_nat (List.length l).

(** [tickLabels.push(labels[i])], for [i] inside [labels]. *)
Definition pushLabel {A} (labels : list A) (i : Z) (tickLabels : list A)
  : list A :=
  match nth_error labels (Z.to_nat i) with
  | Some label => tickLabels ++ [label]
  | None => tickLabels
  end.

(** The [for] loop of [getRecommendedTickValuesForAnOrdinalRange] for a
    finite [step]:
    [for (i = 0; i < len; i += step) tickLabels.push(labels[i])]. *)
Fixpoint ordinalLoop {A} (fuel : nat) (labels : list A) (step i : Z)
  (tickLabels : list A) : list A :=
  match fuel with
  | O => tickLabels
  | S fuel' =>
      if i <? len labels then
        ordinalLoop fuel' labels step (i + step) (pushLabel labels i tickLabels)
      else tickLabels
  end.

(** [getRecommendedTickValuesForAnOrdinalRange(maxTicks, labels)], for
    labels of any type (the entries of [scale.domain()]).  Past the two
    guards [maxTicks] is positive and at most [len], or [NaN].  For a
    number the step is at least 1, so [len] iterations are enough (see
    [ordinalLoop_fuel] and [ordinal_step_positive]); for [NaN] the step is
    [NaN], and [i] is [NaN] after the first round, which ends the loop. *)
Definition getRecommendedTickValuesForAnOrdinalRange {A} (maxTicks : xnum)
  (labels : list A) : list A :=
  if (maxTicks <=? XNum.ofZ 0)%xnum then []
  else if (maxTicks >? XNum.ofZ (len labels))%xnum then labels
  else
    match XNum.floorOfQuotient (len labels) maxTicks with
    | Some step => ordinalLoop (List.length labels) labels step 0 []
    | None => ordinalLoop 1 labels 0 0 []
    end.

(** A D3 scale, as far as the quantitative selector uses it: its tick
    generator [ticks(count)], which an ordinal scale does not have. *)
Record GenericScale := mkScale { ticks : option (xnum -> list number) }.

(** [createTrueZeroTickLabel(ticks, epsilon)] *)
Definition createTrueZeroTickLabel (ticks : list number) (epsilon : number)
  : list number :=
  match ticks with
  | t0 :: t1 :: _ =>
      let closeZero := (epsilon * abs (t1 - t0))%num in
      map (fun tick => if (abs tick <=? closeZero)%num then ofZ 0 else tick)
        ticks
  | _ => ticks
  end.

(** [tickLabels.splice(i, 1)] *)
Definition splice1 (i : nat) (l : list number) : list number :=
  firstn i l ++ skipn (S i) l.

(** [for (var i = 1; i < tickLabels.length; i++) tickLabels.splice(i, 1)];
    every round removes one element, so [length] rounds are enough. *)
Fixpoint spliceLoop (fuel : nat) (i : nat) (tickLabels : list number)
  : list number :=
  match fuel with
  | O => tickLabels
  | S fuel' =>
      if (i <? List.length tickLabels)%nat
      then spliceLoop fuel' (S i) (splice1 i tickLabels)
      else tickLabels
  end.

Definition splicePass (tickLabels : list number) : list number :=
  spliceLoop (List.length tickLabels) 1%nat tickLabels.

(** [while (tickInterval > 0 && tickInterval < minInterval)]: a pass
    leaves a list of at most one element as it is, so once [fuel] passes
    have shortened the list to one element further passes change nothing
    (see [trimLoop_fuel]). *)
Fixpoint trimLoop (fuel : nat) (tickInterval minInterval : number)
  (tickLabels : list number) : list number :=
  match fuel with
  | O => tickLabels
  | S fuel' =>
      if ((tickInterval >? ofZ 0) && (tickInterval <? minInterval))%num
      then trimLoop fuel' (tickInterval * ofZ 2)%num minInterval
             (splicePass tickLabels)
      else tickLabels
  end.

(** Truthiness of an optional number: absent, [NaN] and the zeros are
    falsy. *)
Definition truthyNumber (x : option number) : option number :=
  match x with
  | Some v => if isNaN v || (v === ofZ 0)%num then None else Some v
  | None => None
  end.

(** The [if (minInterval && tickLabels.length > 1)] block. *)
Definition trimToMinInterval (minInterval : option number)
  (tickLabels : list number) : list number :=
  match truthyNumber minInterval, tickLabels with
  | Some minInterval, t0 :: t1 :: _ =>
      let tickInterval := (t1 - t0)%num in
      let tickLabels :=
        trimLoop (List.length tickLabels) tickInterval minInterval
          tickLabels in
      match tickLabels with
      | [t] => [t; (t + minInterval)%num]
      | _ => tickLabels
      end
  | _, _ => tickLabels
  end.

(** [getRecommendedTickValuesForAQuantitativeRange]; without a tick
    generator the source reaches [debug.assertFail] and returns the empty
    list it started with. *)
Definition getRecommendedTickValuesForAQuantitativeRange (maxTicks : xnum)
  (scale : GenericScale) (minInterval : option number) : list number :=
  if (maxTicks === XNum.ofZ 0)%xnum then []
  else
    match ticks scale with
    | Some ticks =>
        let tickLabels := ticks maxTicks in
        let tickLabels :=
          if ((XNum.ofZ (len tickLabels) >? maxTicks)
              && (maxTicks >? XNum.ofZ 1))%xnum
          then ticks (maxTicks - XNum.ofZ 1)%xnum else tickLabels in
        let tickLabels :=
          if len tickLabels <? MinTickCount
          then ticks (maxTicks + XNum.ofZ 1)%xnum else tickLabels in
        let tickLabels :=
          createTrueZeroTickLabel tickLabels (lit 1 100000) in
        trimToMinInterval minInterval tickLabels
    | None => []
    end.

(** *** Margins *)

Record IMargin :=
  mkMargin { top : number; right : number; bottom : number; left : number }.

Definition getMargin (availableWidth availableHeight xMargin yMargin : number)
  : IMargin :=
  if ((getRecommendedNumberOfTicksForXAxis (availableWidth - xMargin)
         === ofZ 0)
      || (getRecommendedNumberOfTicksForYAxis (availableHeight - yMargin)
            === ofZ 0))%num
  then mkMargin (ofZ 0) xMargin yMargin (ofZ 0)
  else mkMargin (ofZ 20) (ofZ 30) (ofZ 40) (ofZ 30).

(** [normalizeNonFiniteNumber]: [None] stands for the [null] returned on
    [NaN]. *)
Definition normalizeNonFiniteNumber (value : number) : option number :=
  if isNaN value then None
  else if (value === POSITIVE_INFINITY)%num then Some MAX_VALUE
  else if (value === NEGATIVE_INFINITY)%num then Some (neg MAX_VALUE)
  else Some value.

(** What the quantitative selector does with the list it has settled
    on: [createTrueZeroTickLabel], then the minimum-interval block. *)
Definition finishTicks (minInterval : option number) (l : list number)
  : list number :=
  trimToMinInterval minInterval (createTrueZeroTickLabel l (lit 1 100000)).

(** Two tick generators to run the selector on.  [sampleTicks] yields
    0, 20, ..., 100 when asked for 5 or 4 ticks, as a linear D3 scale over
    [0, 100] does, and 0, 50, 100 otherwise; [tenTicks] yields 0, 1, ...,
    9 at every count. *)
Definition sampleTicks (count : xnum) : list number :=
  if ((count === XNum.ofZ 5) || (count === XNum.ofZ 4))%xnum
  then map ofZ [0; 20; 40; 60; 80; 100]
  else map ofZ [0; 50; 100].

Definition tenTicks (count : xnum) : list number :=
  map ofZ [0; 1; 2; 3; 4; 5; 6; 7; 8; 9].

(** *** Domains as arrays

    The entries of a domain array ([any[]]) as the domain functions meet
    them: a number, [null] or [undefined].  An array that is itself
    [null] or [undefined] is [None]. *)
Inductive JsValue := VUndefined | VNull | VNumber (n : number).

(** The number a value is compared as: [undefined] is [NaN], [null] is 0. *)
Definition toNumber (v : JsValue) : number :=
  match v with
  | VUndefined => NaN
  | VNull => ofZ 0
  | VNumber n => n
  end.

(** [v == null] *)
Definition isNullish (v : JsValue) : bool :=
  match v with VNumber _ => false | _ => true end.

(** [a > b] and [a < b] *)
Definition jsGt (a b : JsValue) : bool := (toNumber a >? toNumber b)%num.
Definition jsLt (a b : JsValue) : bool := (toNumber a <? toNumber b)%num.

(** [a !== b] *)
Definition strictNeq (a b : JsValue) : bool :=
  match a, b with
  | VUndefined, VUndefined | VNull, VNull => false
  | VNumber x, VNumber y => negb (x === y)%num
  | _, _ => true
  end.

(** [a[i]]: reading past the end gives [undefined]. *)
Definition item (a : list JsValue) (i : nat) : JsValue := nth i a VUndefined.

(** [a[i] = v]: writing past the end extends the array; the holes left in
    between read as [undefined]. *)
Definition assign (a : list JsValue) (i : nat) (v : JsValue) : list JsValue :=
  firstn i a ++ repeat VUndefined (i - List.length a) ++ v :: skipn (S i) a.

(** [combineDomain(forcedDomain, domain)] *)
Definition combineDomain (forcedDomain domain : option (list JsValue))
  : option (list JsValue) :=
  let combinedDomain :=
    match domain with
    | Some d => [item d 0; item d 1]
    | None => []
    end in
  match forcedDomain with
  | Some f =>
      if (List.length f =? 2)%nat then
        let combinedDomain :=
          if negb (isNullish (item f 0))
          then assign combinedDomain 0 (item f 0) else combinedDomain in
        let combinedDomain :=
          if negb (isNullish (item f 1))
          then assign combinedDomain 1 (item f 1) else combinedDomain in
        if jsGt (item combinedDomain 0) (item combinedDomain 1)
        then domain
        else Some combinedDomain
      else Some combinedDomain
  | None => Some combinedDomain
  end.

(** [applyCustomizedDomain(customizedDomain, forcedDomain)] *)
Definition applyCustomizedDomain
  (customizedDomain forcedDomain : option (list JsValue))
  : option (list JsValue) :=
  let domain := [VUndefined; VUndefined] in
  let domain :=
    match forcedDomain with
    | Some f =>
        if (List.length f =? 2)%nat then [item f 0; item f 1] else domain
    | None => domain
    end in
  let domain :=
    match customizedDomain with
    | Some c =>
        if (List.length c =? 2)%nat then
          let domain :=
            if negb (isNullish (item c 0))
            then assign domain 0 (item c 0) else domain in
          if negb (isNullish (item c 1))
          then assign domain 1 (item c 1) else domain
        else domain
    | None => domain
    end in
  if isNullish (item domain 0) && isNullish (item domain 1)
  then forcedDomain
  else if negb (isNullish (item domain 0)) && negb (isNullish (item domain 1))
          && jsGt (item domain 0) (item domain 1)
  then forcedDomain
  else Some domain.

(** [scaleShouldClamp(combinedDomain, domain)] *)
Definition scaleShouldClamp (combinedDomain domain : option (list JsValue))
  : bool :=
  match combinedDomain, domain with
  | Some c, Some d =>
      if (List.length c <? 2)%nat || (List.length d <? 2)%nat then false
      else strictNeq (item c 0) (item d 0) || strictNeq (item c 1) (item d 1)
  | _, _ => false
  end.

(** The flag of a [ValueType] that [isDateTime] reads; the type itself may
    be missing. *)
Record AxisValueType := mkAxisValueType { dateTime : option bool }.

(** [isDateTime(type)]: [!!(type && type.dateTime)] *)
Definition isDateTime (type : option AxisValueType) : bool :=
  match type with
  | Some t => truthy (dateTime t)
  | None => false
  end.

(** [isLogScalePossible(domain, axisType)] *)
Definition isLogScalePossible (domain : option (list JsValue))
  (axisType : option AxisValueType) : bool :=
  match domain with
  | None => false
  | Some d =>
      if isDateTime axisType then false
      else (jsGt (item d 0) (VNumber (ofZ 0))
            && jsGt (item d 1) (VNumber (ofZ 0)))
           || (jsLt (item d 0) (VNumber (ofZ 0))
               && jsLt (item d 1) (VNumber (ofZ 0)))
  end.

(** [ensureValuesInRange(values, min, max)]; the [debug.assert] does not
    change the value returned. *)
Definition ensureValuesInRange (values : list number) (min max : number)
  : list number :=
  let filteredValues :=
    filter (fun v => (v >=? min) && (v <=? max))%num values in
  if len filteredValues <? 2 then [min; max] else filteredValues.

(** [diffScaled(scale, value1, value2)], for a scale over values of any
    type. *)
Definition diffScaled {A : Type} (scale : A -> number) (value1 value2 : A)
  : number :=
  let value := (scale value1 - scale value2)%num in
  if (value === ofZ 0)%num then ofZ 0
  else if (value <? ofZ 0)%num then Num.min value (ofZ (-1))
  else Num.max value (ofZ 1).

(** An ordinal D3 scale, as far as the two lookups below use it: the left
    edges [range()] of its bands, their width [rangeBand()] and its
    [domain()]. *)
Record OrdinalScale (A : Type) :=
  mkOrdinalScale { range : list number; rangeBand : number; domain : list A }.
Arguments range {A} _.
Arguments rangeBand {A} _.
Arguments domain {A} _.

(** The loop of [invertOrdinalScale]:
    [for (j = 0; x > (leftEdges[j] + width) && (leftEdges.length - 1) > j;
    j++);].  Reading [leftEdges[j]] past the end gives [undefined], and the
    sum is then [NaN].  [j] stops below [leftEdges.length], so [length]
    rounds are enough. *)
Fixpoint invertLoop (fuel : nat) (leftEdges : list number) (width x : number)
  (j : nat) : nat :=
  match fuel with
  | O => j
  | S fuel' =>
      if (x >? (nth j leftEdges NaN + width))%num
         && (j <? List.length leftEdges - 1)%nat
      then invertLoop fuel' leftEdges width x (S j)
      else j
  end.

Definition invertOrdinalScaleIndex {A : Type} (scale : OrdinalScale A)
  (x : number) : nat :=
  invertLoop (List.length (range scale)) (range scale) (rangeBand scale) x 0.

(** [invertOrdinalScale(scale, x)]; [None] is the [undefined] read from an
    index outside [domain()]. *)
Definition invertOrdinalScale {A : Type} (scale : OrdinalScale A) (x : number)
  : option A :=
  nth_error (domain scale) (invertOrdinalScaleIndex scale x).

(** The loop of [getOrdinalScaleClosestDataPointIndex] over
    [range[j], range[j + 1], ...]. *)
Fixpoint closestLoop (x : number) (rest : list number) (j : nat)
  (distance : number) (index : nat) : nat :=
  match rest with
  | [] => index
  | r :: rest' =>
      let currentDistance := abs (x - r)%num in
      if (distance >? currentDistance)%num
      then closestLoop x rest' (S j) currentDistance j
      else closestLoop x rest' (S j) distance index
  end.

(** [getOrdinalScaleClosestDataPointIndex(scale, x)]; on an empty range
    [range[0]] is [undefined] and the first distance is [NaN]. *)
Definition getOrdinalScaleClosestDataPointIndex {A : Type}
  (scale : OrdinalScale A) (x : number) : nat :=
  let distance := abs (x - nth 0 (range scale) NaN)%num in
  closestLoop x (tl (range scale)) 1 distance 0.

Section DateTimeTicks.

(** [DateTimeSequence.calculate(new Date(min), new Date(max),
    maxTicks).sequence], each date given by its [getTime()]: the sequence
    generator is outside this file. *)
Variable calculate : number -> number -> xnum -> list number.

(** [getRecommendedTickValuesForADateTimeRange(maxTicks, dataDomain)], for
    the two-element domain of a scalar scale. *)
Definition getRecommendedTickValuesForADateTimeRange (maxTicks : xnum)
  (dataDomain : number * number) : list number :=
  let tickLabels := calculate (fst dataDomain) (snd dataDomain) maxTicks in
  ensureValuesInRange tickLabels (fst dataDomain) (snd dataDomain).

End DateTimeTicks.

Section TickValues.

(** The entries of [scale.domain()] are of any type [A]; [asNumber] is
    how an entry reads where the date-time selector takes it as a
    number. *)
Context {A : Type}.
Variable asNumber : A -> number.
Variable calculate : number -> number -> xnum -> list number.

(** A D3 scale as [getRecommendedTickValues] sees it: whether it has an
    [invert] function (an ordinal scale has none), its [domain()], and
    its tick generator. *)
Record AxisScale :=
  mkAxisScale {
      hasInvert : bool;
      scaleDomain : list A;
      generic : GenericScale
    }.

(** [isOrdinalScale(scale)]: [typeof scale.invert === 'undefined'] *)
Definition isOrdinalScale (scale : AxisScale) : bool := negb (hasInvert scale).

(** [dataDomain[i]] read as a number; an entry read past the end is
    [undefined], which is no number. *)
Definition domainBound (dataDomain : list A) (i : nat) : number :=
  match nth_error dataDomain i with
  | Some entry => asNumber entry
  | None => NaN
  end.

(** [getRecommendedTickValues(maxTicks, scale, axisType, isScalar,
    minTickInterval)]: the labels picked from an ordinal domain, or the
    tick numbers of a scalar one. *)
Definition getRecommendedTickValues (maxTicks : xnum) (scale : AxisScale)
  (axisType : option AxisValueType) (isScalar : bool)
  (minTickInterval : option number) : list A + list number :=
  if negb isScalar || isOrdinalScale scale then
    inl (getRecommendedTickValuesForAnOrdinalRange maxTicks
           (scaleDomain scale))
  else if isDateTime axisType then
    inr (getRecommendedTickValuesForADateTimeRange calculate maxTicks
           (domainBound (scaleDomain scale) 0,
            domainBound (scaleDomain scale) 1))
  else
    inr (getRecommendedTickValuesForAQuantitativeRange maxTicks
           (generic scale) minTickInterval).

(** The number of tick values returned. *)
Definition tickCount (tickValues : list A + list number) : Z :=
  match tickValues with
  | inl labels => len labels
  | inr values => len values
  end.

End TickValues.

Arguments AxisScale A : clear implicits.
Arguments mkAxisScale A hasInvert scaleDomain generic : clear implicits.

Section ValueDomain.

(** [d3.min(data, ...)] and [d3.max(data, ...)] over the values of all
    series: D3 is outside the repository; either may be [undefined]. *)
Variable CartesianSeries : Type.
Variable d3min d3max : list CartesianSeries -> JsValue.

(** [createValueDomain(data, includeZero)]; [None] is the [null] returned
    for no series. *)
Definition createValueDomain (data : list CartesianSeries)
  (includeZero : bool) : option (list JsValue) :=
  match data with
  | [] => None
  | _ =>
      let minY := d3min data in
      let maxY := d3max data in
      if includeZero
      then Some [VNumber (Num.min (toNumber minY) (ofZ 0));
                 VNumber (Num.max (toNumber maxY) (ofZ 0))]
      else Some [minY; maxY]
  end.

End ValueDomain.

End AxisHelper.

(** ** TextMeasurementService *)

Module TextMeasurementService.

Import XNum(xnum, XNaN, XNegInf, XFin, XPosInf).
Local Open Scope string_scope.

(** [TextProperties], with the fields that width measurement reads. *)
Record TextProperties :=
  mkProps { text : string; fontFamily : string; fontSize : string }.

Definition withText (properties : TextProperties) (t : string)
  : TextProperties :=
  mkProps t (fontFamily properties) (fontSize properties).

(** [s.substr(start, length)] for [start >= 0]: empty when [length] is
    not positive, cut at the end of [s]. *)
Definition substr (start length : Z) (s : string) : string :=
  if (length <=? 0)%Z then ""
  else substring (Z.to_nat start) (Z.to_nat length) s.

Definition strlen (s : string) : Z := Z.of_nat (String.length s).

Section Canvas.

(** The canvas context: [measureText(text).width] under a given [font].
    Measured widths are finite and are only compared, never computed
    with, so they are taken in [Q].  The width budget [maxWidth] is any
    number the caller hands over, [NaN] and the infinities included: it
    is an [xnum]. *)
Variable measureText : string -> string -> Q.

Definition measureSvgTextWidth (textProperties : TextProperties) : Q :=
  measureText (fontSize textProperties ++ " " ++ fontFamily textProperties)
    (text textProperties).

(** The binary search [while (min <= max)], returning the last [i]. *)
Fixpoint searchLoop (fuel : nat) (properties : TextProperties)
  (text : string) (maxWidth : xnum) (min max i : Z) : Z :=
  match fuel with
  | O => i
  | S fuel' =>
      if (min <=? max)%Z then
        let i := Z.quot (min + max) 2 in
        let width :=
          measureSvgTextWidth (withText properties (substr 0 i text)) in
        if (maxWidth >? XFin width)%xnum
        then searchLoop fuel' properties text maxWidth (i + 1) max i
        else if (maxWidth <? XFin width)%xnum
        then searchLoop fuel' properties text maxWidth min (i - 1) i
        else i
      else i
  end.

Definition dotsString : string := "...".

(** [getTailoredTextOrDefault]; the interval [min..max] shrinks in every
    round of the search, so [text.length] rounds are enough
    (see [searchLoop_fuel]). *)
Definition getTailoredTextOrDefault (properties : TextProperties)
  (maxWidth : xnum) : string :=
  let strLength := strlen (text properties) in
  if (strLength =? 0)%Z then text properties
  else
    let width := measureSvgTextWidth properties in
    if (XFin width <? maxWidth)%xnum then text properties
    else
      let text := dotsString ++ text properties in
      let i :=
        searchLoop (String.length text) properties text maxWidth
          1 (strlen text) 3 in
      let width :=
        measureSvgTextWidth (withText properties (substr 0 i text)) in
      let i := if (XFin width >? maxWidth)%xnum then i - 1 else i in
      substr 3 (i - 3) text ++ dotsString.

End Canvas.

(** The measurer of the scenarios: 10 pixels for every character, in
    every font. *)
Definition tenPixelsPerChar (font s : string) : Q :=
  inject_Z (10 * strlen s).

End TextMeasurementService.

(** ** AxisHelper.LabelLayoutStrategy *)

Module LabelLayoutStrategy.

Import Num AxisHelper TextMeasurementService.

(** [IAxisProperties], with the fields the two fit tests read: the
    formatted labels and the optional width budget of a label. *)
Record IAxisProperties :=
  mkAxisProperties { values : list string; xLabelMaxWidth : option number }.

Section Measurer.

(** The text measurer handed to the tests, and
    [jsCommon.WordBreaker.hasBreakers]; both are outside this file.  The
    measured width is compared with a computed bound, so it is a binary64
    number here. *)
Variable textMeasurer : TextProperties -> number.
Variable hasBreakers : string -> bool.

Definition labelMaxWidth (axisProperties : IAxisProperties)
  (availableWidth : number) : number :=
  match xLabelMaxWidth axisProperties with
  | Some w => w
  | None => (availableWidth / ofZ (len (values axisProperties)))%num
  end.

(** [willLabelsFit] *)
Definition willLabelsFit (axisProperties : IAxisProperties)
  (availableWidth : number) (properties : TextProperties) : bool :=
  let labels := values axisProperties in
  if len labels =? 0 then false
  else
    let labelMaxWidth := labelMaxWidth axisProperties availableWidth in
    negb (existsb
            (fun d => (textMeasurer (withText properties d) >? labelMaxWidth)%num)
            labels).

(** [willLabelsWordBreak] *)
Definition willLabelsWordBreak (axisProperties : IAxisProperties)
  (availableWidth : number) (properties : TextProperties) : bool :=
  let labels := values axisProperties in
  let labelMaxWidth := labelMaxWidth axisProperties availableWidth in
  if len labels =? 0 then false
  else
    negb (existsb
            (fun label =>
               negb (hasBreakers label)
               && (textMeasurer (withText properties label) >? labelMaxWidth)%num)
            labels).

End Measurer.

End LabelLayoutStrategy.

(** ** FunnelChart: the space left for bars *)

Module FunnelChart.

Import Num.

Definition PercentBarToBarRatio : number := ofZ 2.
Definition MinBarThickness : number := ofZ 12.

(** What the three space tests read of the chart: the height of the
    current viewport, the top and bottom margins and the category labels
    of the data. *)
Record FunnelView :=
  mkFunnelView {
      viewportHeight : number;
      marginTop : number;
      marginBottom : number;
      categoryLabels : list string
    }.

Definition getUsableVerticalSpace (this : FunnelView) : number :=
  let verticalSpace :=
    (viewportHeight this - (marginTop this + marginBottom this))%num in
  (verticalSpace
   - MinBarThickness * ofZ (Z.of_nat (List.length (categoryLabels this))))%num.

Definition isHidingPercentBars (this : FunnelView) : bool :=
  let verticalSpace :=
    (getUsableVerticalSpace this
     - ofZ 2 * MinBarThickness * PercentBarToBarRatio)%num in
  (verticalSpace <=? ofZ 0)%num.

Definition isSparklines (this : FunnelView) : bool :=
  (getUsableVerticalSpace this <=? ofZ 0)%num.

End FunnelChart.

(** * Properties *)

Import Num AxisHelper.
Import XNum(xnum, XNaN, XNegInf, XFin, XPosInf).

(** ** Degenerate and near-zero domains *)

Section DomainNormalization.

Local Open Scope num_scope.

Lemma isNaN_true (x : number) : isNaN x = true -> x = NaN.
Proof. destruct x; simpl; intros H; try discriminate; reflexivity. Qed.

Lemma eqb_NaN_l (y : number) : (NaN === y) = false.
Proof. reflexivity. Qed.

Lemma eqb_NaN_r (x : number) : (x === NaN) = false.
Proof. destruct x; reflexivity. Qed.

(** C5. Degenerate-domain repair by [normalizeLinearDomain]: a domain with
    a [NaN] bound becomes the fallback [0, 10]; a domain whose two bounds
    are zero keeps its minimum and gets the maximum 10, so [0, 0] becomes
    [0, 10]; a domain with [min == max] that is not all-zero is widened by
    20% on each side, away from zero on the far side (a negative bound is
    multiplied by 1.2 as minimum and by 0.8 as maximum, any other bound by
    0.8 as minimum and by 1.2 as maximum); so [5, 5] becomes [4, 6] and
    [-5, -5] becomes [-6, -4]. *)
Theorem normalizeLinearDomain_degenerate_repair :
  forall d : NumberRange,
    (isNaN (min d) || isNaN (max d) = true ->
     normalizeLinearDomain d = mkRange (ofZ 0) (ofZ 10))
    /\ (((min d === ofZ 0) && (max d === ofZ 0)) = true ->
        normalizeLinearDomain d = mkRange (min d) (ofZ 10))
    /\ (isNaN (min d) || isNaN (max d) = false ->
        ((min d === ofZ 0) && (max d === ofZ 0)) = false ->
        (min d === max d) = true ->
        normalizeLinearDomain d =
          mkRange
            (if min d <? ofZ 0
             then min d * lit 12 10 else min d * lit 8 10)
            (if max d <? ofZ 0
             then max d * lit 8 10 else max d * lit 12 10))
    /\ normalizeLinearDomain (mkRange (ofZ 0) (ofZ 0))
       = mkRange (ofZ 0) (ofZ 10)
    /\ normalizeLinearDomain (mkRange (ofZ 5) (ofZ 5))
       = mkRange (ofZ 4) (ofZ 6)
    /\ normalizeLinearDomain (mkRange (ofZ (-5)) (ofZ (-5)))
       = mkRange (ofZ (-6)) (ofZ (-4)).
Proof.
  intros d. repeat split.
  - intros Hnan. unfold normalizeLinearDomain. rewrite Hnan. reflexivity.
  - intros Hzero. unfold normalizeLinearDomain.
    destruct (isNaN (min d) || isNaN (max d))%bool eqn:Hnan.
    + (* a zero bound is not NaN *)
      apply andb_prop in Hzero. destruct Hzero as [Hmin Hmax].
      apply orb_prop in Hnan. destruct Hnan as [Hn | Hn];
        apply isNaN_true in Hn.
      * rewrite Hn, eqb_NaN_l in Hmin. discriminate.
      * rewrite Hn, eqb_NaN_l in Hmax. discriminate.
    + rewrite Hzero. reflexivity.
  - intros Hnan Hzero Heq. unfold normalizeLinearDomain.
    rewrite Hnan, Hzero, Heq. reflexivity.
Qed.

(** The theorem above at the domains [NaN, 1], [-0, 0] and [7, 7]. *)
Lemma normalizeLinearDomain_degenerate_repair_witness :
  normalizeLinearDomain (mkRange NaN (ofZ 1)) = mkRange (ofZ 0) (ofZ 10)
  /\ normalizeLinearDomain (mkRange (S754_zero true) (ofZ 0))
     = mkRange (S754_zero true) (ofZ 10)
  /\ normalizeLinearDomain (mkRange (ofZ 7) (ofZ 7))
     = mkRange (ofZ 7 * lit 8 10) (ofZ 7 * lit 12 10).
Proof.
  split; [ | split ].
  - apply (proj1 (normalizeLinearDomain_degenerate_repair
                    (mkRange NaN (ofZ 1)))).
    reflexivity.
  - apply (proj1 (proj2 (normalizeLinearDomain_degenerate_repair
                           (mkRange (S754_zero true) (ofZ 0))))).
    reflexivity.
  - apply (proj1 (proj2 (proj2 (normalizeLinearDomain_degenerate_repair
                                  (mkRange (ofZ 7) (ofZ 7))))));
      reflexivity.
Defined.

(** On a domain that reaches the last branch the minimum is replaced by 0
    exactly when [|min| < 1e-4] and [min / (max - min) < 1e-4], with the
    ratio taken signed as the source has it; the maximum is kept. *)
Lemma normalizeLinearDomain_near_zero_rule (d : NumberRange) :
  isNaN (min d) || isNaN (max d) = false ->
  ((min d === ofZ 0) && (max d === ofZ 0)) = false ->
  (min d === max d) = false ->
  normalizeLinearDomain d
  = (if (abs (min d) <? lit 1 10000)
        && (min d / (max d - min d) <? lit 1 10000)
     then mkRange (ofZ 0) (max d) else d)
  /\ max (normalizeLinearDomain d) = max d.
Proof.
  intros Hnan Hzero Heq. unfold normalizeLinearDomain.
  rewrite Hnan, Hzero, Heq.
  split; [ reflexivity | ].
  destruct ((abs (min d) <? lit 1 10000)
            && (min d / (max d - min d) <? lit 1 10000))%bool; reflexivity.
Qed.

(** The signed ratio and the ratio of magnitudes are the same number when
    the minimum has no sign. *)
Lemma abs_unsigned (x : number) : signbit x = false -> abs x = x.
Proof.
  destruct x as [s | s | | s m e]; cbn; intros H; subst; reflexivity.
Qed.

(** C1. [normalizeLinearDomain], as a function on [{min, max}] pairs, is
    not idempotent: on the domain [-0.00005, 0] a first pass snaps the
    minimum to 0 and yields [0, 0], which a second pass turns into the
    fallback [0, 10]; and on the degenerate domain [-0.00001, -0.00001] a
    first pass widens it and a second pass replaces its minimum by 0,
    leaving a minimum above the maximum. *)
Theorem normalizeLinearDomain_not_idempotent :
  let d := mkRange (lit (-5) 100000) (ofZ 0) in
  let e := mkRange (lit (-1) 100000) (lit (-1) 100000) in
  normalizeLinearDomain d = mkRange (ofZ 0) (ofZ 0)
  /\ normalizeLinearDomain (normalizeLinearDomain d)
     = mkRange (ofZ 0) (ofZ 10)
  /\ normalizeLinearDomain (normalizeLinearDomain d)
     <> normalizeLinearDomain d
  /\ (max (normalizeLinearDomain d)
        === max (normalizeLinearDomain (normalizeLinearDomain d))) = false
  /\ (min (normalizeLinearDomain e) <? ofZ 0) = true
  /\ min (normalizeLinearDomain (normalizeLinearDomain e)) = ofZ 0
  /\ (max (normalizeLinearDomain (normalizeLinearDomain e)) <? ofZ 0) = true.
Proof.
  vm_compute. repeat split; try reflexivity. discriminate.
Qed.

(** C6. Near-zero snapping at the domain [-0.00005, 0.00001], which has
    non-[NaN] bounds, [min < max] and is not all-zero: [|min| < 1e-4]
    holds, [|min| / (max - min) < 1e-4] does not (the ratio is about
    0.83), and yet [normalizeLinearDomain] replaces the minimum by 0; the
    maximum is unchanged. *)
Theorem normalizeLinearDomain_snaps_non_negligible_min :
  let d := mkRange (lit (-5) 100000) (lit 1 100000) in
  (isNaN (min d) || isNaN (max d) = false)
  /\ (min d <? max d) = true
  /\ ((min d === ofZ 0) && (max d === ofZ 0)) = false
  /\ (abs (min d) <? lit 1 10000) = true
  /\ (abs (min d) / (max d - min d) <? lit 1 10000) = false
  /\ (lit 8 10 <? abs (min d) / (max d - min d)) = true
  /\ normalizeLinearDomain d = mkRange (ofZ 0) (lit 1 100000).
Proof.
  vm_compute. repeat split; reflexivity.
Qed.

End DomainNormalization.

(** ** Tick counts, margins and non-finite numbers *)

Section TickCounts.

Local Open Scope num_scope.

Lemma recommendedX_cases (w : number) :
  getRecommendedNumberOfTicksForXAxis w = ofZ 3
  \/ getRecommendedNumberOfTicksForXAxis w = ofZ 5
  \/ getRecommendedNumberOfTicksForXAxis w = ofZ 8.
Proof.
  unfold getRecommendedNumberOfTicksForXAxis.
  destruct (w <? ofZ 250); [ now left | ].
  destruct (w <? ofZ 500); [ now right; left | now right; right ].
Qed.

Lemma recommendedY_cases (w : number) :
  getRecommendedNumberOfTicksForYAxis w = ofZ 3
  \/ getRecommendedNumberOfTicksForYAxis w = ofZ 5
  \/ getRecommendedNumberOfTicksForYAxis w = ofZ 8.
Proof.
  unfold getRecommendedNumberOfTicksForYAxis.
  destruct (w <? ofZ 150); [ now left | ].
  destruct (w <? ofZ 300); [ now right; left | now right; right ].
Qed.

Lemma three_five_eight_nonzero (n : number) :
  n = ofZ 3 \/ n = ofZ 5 \/ n = ofZ 8 -> (n === ofZ 0) = false.
Proof. intros [-> | [-> | ->]]; reflexivity. Qed.

(** C10. For every available width, [NaN], zero, negative and infinite
    ones included, the two recommended tick counts are 3, 5 or 8 and are
    never equal to 0; hence [getMargin] never takes its zero-ticks branch
    and always returns the margin [{top: 20, right: 30, bottom: 40,
    left: 30}]. *)
Theorem recommended_ticks_never_zero :
  forall availableWidth availableHeight xMargin yMargin : number,
    (getRecommendedNumberOfTicksForXAxis availableWidth = ofZ 3
     \/ getRecommendedNumberOfTicksForXAxis availableWidth = ofZ 5
     \/ getRecommendedNumberOfTicksForXAxis availableWidth = ofZ 8)
    /\ (getRecommendedNumberOfTicksForYAxis availableWidth = ofZ 3
        \/ getRecommendedNumberOfTicksForYAxis availableWidth = ofZ 5
        \/ getRecommendedNumberOfTicksForYAxis availableWidth = ofZ 8)
    /\ (getRecommendedNumberOfTicksForXAxis availableWidth === ofZ 0) = false
    /\ (getRecommendedNumberOfTicksForYAxis availableWidth === ofZ 0) = false
    /\ getMargin availableWidth availableHeight xMargin yMargin
       = mkMargin (ofZ 20) (ofZ 30) (ofZ 40) (ofZ 30).
Proof.
  intros w h xm ym.
  pose proof (recommendedX_cases w) as HX.
  pose proof (recommendedY_cases w) as HY.
  repeat split; auto using three_five_eight_nonzero.
  unfold getMargin.
  rewrite (three_five_eight_nonzero _ (recommendedX_cases (w - xm))).
  rewrite (three_five_eight_nonzero _ (recommendedY_cases (h - ym))).
  reflexivity.
Qed.

(** C4, as stated, fails: values between -1 and 1 do not get
    [min(max - min + 1, maxTickCount)] ticks.  The guard for
    [maxTickCount <= 1] or values between -1 and 1 answers first and
    returns [maxTickCount]: the integral domain [0, 1] with
    [maxTickCount = 5] gets 5 ticks, not [min(1 - 0 + 1, 5) = 2]. *)
Lemma getBestNumberOfTicks_between_minus_one_and_one :
  ~ (forall (min max maxTickCount : number)
            (valuesMetadata : list (option DataViewMetadataColumn))
            (isDateTime : bool),
        isNaN min = false -> isNaN max = false ->
        (min <=? max) = true -> (min === max) = false ->
        ((max <=? ofZ 1) && (min >=? ofZ (-1))) = true ->
        getBestNumberOfTicks min max valuesMetadata maxTickCount isDateTime
        = Num.min (max - min + ofZ 1) maxTickCount).
Proof.
  intros H.
  specialize (H (ofZ 0) (ofZ 1) (ofZ 5)
                [Some (mkColumn (Some (mkValueType (Some true))))] false
                eq_refl eq_refl eq_refl eq_refl eq_refl).
  vm_compute in H. discriminate.
Qed.

(** The same guard also answers before the test for a degenerate
    domain.  The comment at that test and the description of the
    [isDateTime] parameter promise a single tick for a degenerate
    date-time domain, yet on [min = max = 0] with [maxTickCount = 5]
    the function returns 5. *)
Example getBestNumberOfTicks_degenerate_datetime_at_zero :
  getBestNumberOfTicks (ofZ 0) (ofZ 0) [] (ofZ 5) true = ofZ 5.
Proof. reflexivity. Qed.

(** C4, amended.  For non-[NaN] [min <= max], and leaving open what a
    degenerate date-time domain gets when [maxTickCount <= 1] or its
    value lies between -1 and 1: [getBestNumberOfTicks] returns
    [maxTickCount] when [maxTickCount <= 1] or when the values lie
    between -1 and 1 ([max <= 1] and [min >= -1]); otherwise it returns 1
    for a degenerate domain ([min == max]) that is date-time and the
    default 3 for any other degenerate domain; otherwise it returns
    [maxTickCount] when the metadata has non-integer data and
    [min(max - min + 1, maxTickCount)] when the domain is integral. *)
Theorem getBestNumberOfTicks_cases :
  forall (min max maxTickCount : number)
         (valuesMetadata : list (option DataViewMetadataColumn))
         (isDateTime : bool),
    isNaN min = false -> isNaN max = false -> (min <=? max) = true ->
    let guard :=
      (maxTickCount <=? ofZ 1) || ((max <=? ofZ 1) && (min >=? ofZ (-1))) in
    let best :=
      getBestNumberOfTicks min max valuesMetadata maxTickCount isDateTime in
    (guard = true -> isDateTime && (min === max) = false ->
     best = maxTickCount)
    /\ (guard = false -> (min === max) = true ->
        best = if isDateTime then ofZ 1 else ofZ 3)
    /\ (guard = false -> (min === max) = false ->
        hasNonIntegerData valuesMetadata = true -> best = maxTickCount)
    /\ (guard = false -> (min === max) = false ->
        hasNonIntegerData valuesMetadata = false ->
        best = Num.min (max - min + ofZ 1) maxTickCount).
Proof.
  intros min max maxTickCount md isDateTime Hmin Hmax _ guard best.
  subst guard best. unfold getBestNumberOfTicks.
  rewrite Hmin, Hmax. cbn [orb].
  repeat split.
  - intros -> _. reflexivity.
  - intros -> ->. reflexivity.
  - intros -> -> ->. reflexivity.
  - intros -> -> ->. reflexivity.
Qed.

(** The amended C4 at [min = 2], [max = 5], integral metadata and at most
    8 ticks: four ticks, one per integer of the domain. *)
Lemma getBestNumberOfTicks_cases_witness :
  getBestNumberOfTicks (ofZ 2) (ofZ 5)
    [Some (mkColumn (Some (mkValueType (Some true))))] (ofZ 8) false
  = Num.min (ofZ 5 - ofZ 2 + ofZ 1) (ofZ 8)
  /\ Num.min (ofZ 5 - ofZ 2 + ofZ 1) (ofZ 8) = ofZ 4.
Proof.
  split; [ | reflexivity ].
  apply (getBestNumberOfTicks_cases (ofZ 2) (ofZ 5) (ofZ 8)
           [Some (mkColumn (Some (mkValueType (Some true))))] false
           eq_refl eq_refl eq_refl); reflexivity.
Defined.

(** C9, as stated, fails: on [NaN] no number is returned at all (the
    source returns [null]). *)
Lemma normalizeNonFiniteNumber_NaN_is_not_a_number :
  ~ (forall value : number,
        exists r : number,
          normalizeNonFiniteNumber value = Some r /\ isFinite r = true).
Proof.
  intros H. destruct (H NaN) as [r [Hr _]]. discriminate.
Qed.

(** C9, amended.  [normalizeNonFiniteNumber] returns [null] on [NaN] and
    a finite number of the same sign on every other input: positive
    infinity becomes [Number.MAX_VALUE], negative infinity becomes
    [-Number.MAX_VALUE], and a finite input is returned unchanged.  So
    no result is a non-finite number. *)
Theorem normalizeNonFiniteNumber_cases :
  forall value : number,
    normalizeNonFiniteNumber value
    = match value with
      | S754_nan => None
      | S754_infinity false => Some MAX_VALUE
      | S754_infinity true => Some (neg MAX_VALUE)
      | _ => Some value
      end
    /\ match normalizeNonFiniteNumber value with
       | Some r =>
           isFinite r = true /\ signbit r = signbit value
           /\ isNaN value = false
           /\ (if isFinite value then r = value else True)
       | None => isNaN value = true
       end.
Proof.
  intros [ s | [ | ] | | s m e ]; split; cbn; auto.
Qed.

End TickCounts.

(** ** Numbers taken exactly: the order *)

Section ExactOrder.

Import XNum.

Lemma xltb_fin (p q : Q) : (XFin p <? XFin q)%xnum = true <-> (p < q)%Q.
Proof.
  unfold ltb, compare. rewrite Qlt_alt.
  destruct (p ?= q)%Q; split; intros H; try reflexivity; discriminate.
Qed.

Lemma xltb_fin_false (p q : Q) :
  (XFin p <? XFin q)%xnum = false <-> (q <= p)%Q.
Proof.
  rewrite <- Bool.not_true_iff_false, xltb_fin.
  split; [ apply Qnot_lt_le | apply Qle_not_lt ].
Qed.

Lemma xleb_fin (p q : Q) : (XFin p <=? XFin q)%xnum = true <-> (p <= q)%Q.
Proof.
  unfold leb, compare. rewrite Qle_alt.
  destruct (p ?= q)%Q; split; intros H; try reflexivity; try discriminate.
  now contradiction H.
Qed.

Lemma xleb_fin_false (p q : Q) :
  (XFin p <=? XFin q)%xnum = false <-> (q < p)%Q.
Proof.
  rewrite <- Bool.not_true_iff_false, xleb_fin.
  split; [ apply Qnot_le_lt | apply Qlt_not_le ].
Qed.

Lemma xeqb_fin (p q : Q) : (XFin p === XFin q)%xnum = true <-> (p == q)%Q.
Proof.
  unfold eqb, compare. rewrite Qeq_alt.
  destruct (p ?= q)%Q; split; intros H; try reflexivity; discriminate.
Qed.

(** What the two guards of the ordinal selector let through: [NaN], or a
    positive number that is at most the number of labels. *)
Lemma ordinal_guards (maxTicks : xnum) (n : Z) :
  (maxTicks <=? ofZ 0)%xnum = false ->
  (maxTicks >? ofZ n)%xnum = false ->
  maxTicks = XNaN
  \/ exists q, maxTicks = XFin q /\ (0 < q)%Q /\ (q <= inject_Z n)%Q.
Proof.
  destruct maxTicks as [ | | q | ]; intros H0 H1;
    [ now left | discriminate | | discriminate ].
  right. exists q. split; [ reflexivity | ].
  unfold ofZ in *. apply xleb_fin_false in H0.
  unfold gtb in H1. apply xltb_fin_false in H1. now split.
Qed.

(** [Math.floor(n / q)] brackets the quotient. *)
Lemma floor_quotient_bounds (n : Z) (q : Q) :
  (0 < q)%Q ->
  (inject_Z (Qfloor (inject_Z n / q)) * q <= inject_Z n)%Q
  /\ (inject_Z n < inject_Z (Qfloor (inject_Z n / q) + 1) * q)%Q.
Proof.
  intros Hq.
  assert (Hnz : ~ (q == 0)%Q) by (intros E; rewrite E in Hq; discriminate).
  pose proof (Qfloor_le (inject_Z n / q)) as Hlo.
  pose proof (Qlt_floor (inject_Z n / q)) as Hhi.
  split.
  - apply (Qmult_le_compat_r _ _ q) in Hlo; [ | now apply Qlt_le_weak ].
    now rewrite Qmult_comm, (Qmult_comm (_ / _)), Qmult_div_r,
      Qmult_comm in Hlo.
  - apply (Qmult_lt_compat_r _ _ q) in Hhi; [ | assumption ].
    now rewrite (Qmult_comm (_ / _)), Qmult_div_r in Hhi.
Qed.

(** Past the guards of the ordinal selector the step is at least 1. *)
Lemma ordinal_step_positive (n : Z) (q : Q) :
  (0 < q)%Q -> (q <= inject_Z n)%Q -> 1 <= Qfloor (inject_Z n / q).
Proof.
  intros Hq Hn.
  destruct (floor_quotient_bounds n q Hq) as [_ Hhi].
  destruct q as [a b]. unfold Qlt, Qle, Qmult, inject_Z in *.
  cbn [Qnum Qden] in *. nia.
Qed.

(** For a whole tick count the step is the integer quotient. *)
Lemma floor_quotient_whole (n z : Z) :
  0 < z -> Qfloor (inject_Z n / inject_Z z) = n / z.
Proof.
  intros Hz. destruct z as [ | p | p]; try lia.
  unfold Qfloor, Qdiv, Qmult, Qinv, inject_Z. cbn [Qnum Qden].
  now rewrite Z.mul_1_r, Pos.mul_1_l.
Qed.

End ExactOrder.

(** ** Ordinal tick values *)

Section OrdinalTicks.

Local Open Scope Z_scope.

Context {A : Type}.

Lemma len_app {B} (l1 l2 : list B) : len (l1 ++ l2) = len l1 + len l2.
Proof. unfold len. rewrite length_app. lia. Qed.

Lemma len_nonneg {B} (l : list B) : 0 <= len l.
Proof. unfold len. lia. Qed.

Lemma pushLabel_inside (labels : list A) (i : Z) (tickLabels : list A) :
  0 <= i < len labels ->
  exists label,
    nth_error labels (Z.to_nat i) = Some label
    /\ pushLabel labels i tickLabels = tickLabels ++ [label].
Proof.
  intros Hi. unfold pushLabel, len in *.
  destruct (nth_error labels (Z.to_nat i)) as [label | ] eqn:E.
  - now exists label.
  - apply nth_error_None in E. lia.
Qed.

(** With a positive step the loop stops by itself: fuel beyond the
    distance left to [len] is never used. *)
Lemma ordinalLoop_fuel (labels : list A) (step : Z) :
  1 <= step ->
  forall fuel extra i tickLabels,
    len labels - i <= Z.of_nat fuel ->
    ordinalLoop (fuel + extra) labels step i tickLabels
    = ordinalLoop fuel labels step i tickLabels.
Proof.
  intros Hstep fuel. induction fuel as [ | fuel IH];
    intros extra i tickLabels Hfuel.
  - destruct extra as [ | extra]; [ reflexivity | ].
    cbn [Nat.add ordinalLoop].
    destruct (i <? len labels) eqn:Hi; [ | reflexivity ].
    apply Z.ltb_lt in Hi. cbn in Hfuel. lia.
  - cbn [Nat.add ordinalLoop].
    destruct (i <? len labels) eqn:Hi; [ | reflexivity ].
    apply IH. lia.
Qed.

(** The loop pushes at most [k] labels when [k] steps cover what is left
    of the label list. *)
Lemma ordinalLoop_length (labels : list A) (step : Z) :
  1 <= step ->
  forall fuel i tickLabels k,
    0 <= i -> 0 <= k -> len labels - i <= k * step ->
    len (ordinalLoop fuel labels step i tickLabels) <= len tickLabels + k.
Proof.
  intros Hstep fuel. induction fuel as [ | fuel IH];
    intros i tickLabels k Hi0 Hk Hcover; cbn [ordinalLoop]; [ lia | ].
  destruct (i <? len labels) eqn:Hi; [ | lia ].
  apply Z.ltb_lt in Hi.
  assert (1 <= k) by nia.
  destruct (pushLabel_inside labels i tickLabels ltac:(lia)) as [l [_ ->]].
  specialize (IH (i + step) (tickLabels ++ [l]) (k - 1)).
  rewrite len_app in IH. change (len [l]) with 1 in IH.
  assert (len labels - (i + step) <= (k - 1) * step) by nia.
  lia.
Qed.

Lemma skipn_nth_error (labels : list A) (k : nat) (label : A) :
  nth_error labels k = Some label ->
  skipn k labels = label :: skipn (S k) labels.
Proof.
  revert k. induction labels as [ | a labels IH]; intros [ | k] H;
    cbn in H; try discriminate.
  - now injection H as ->.
  - cbn [skipn]. now apply IH.
Qed.

(** With step 1 the loop copies the labels from index [i] on. *)
Lemma ordinalLoop_step1 (labels : list A) :
  forall fuel k tickLabels,
    (List.length labels <= fuel + k)%nat ->
    ordinalLoop fuel labels 1 (Z.of_nat k) tickLabels
    = tickLabels ++ skipn k labels.
Proof.
  induction fuel as [ | fuel IH]; intros k tickLabels Hfuel;
    cbn [ordinalLoop].
  - rewrite skipn_all2 by lia. now rewrite app_nil_r.
  - destruct (Z.of_nat k <? len labels) eqn:Hk.
    + apply Z.ltb_lt in Hk.
      destruct (pushLabel_inside labels (Z.of_nat k) tickLabels ltac:(lia))
        as [l [Hl ->]].
      rewrite Nat2Z.id in Hl.
      replace (Z.of_nat k + 1) with (Z.of_nat (S k)) by lia.
      rewrite IH by lia. rewrite <- app_assoc. f_equal.
      symmetry. now apply skipn_nth_error.
    + apply Z.ltb_ge in Hk. unfold len in Hk.
      rewrite skipn_all2 by lia. now rewrite app_nil_r.
Qed.

End OrdinalTicks.

Section OrdinalRoundTrip.

Local Open Scope Z_scope.

(** C7. Round trip on ordinal ticks: a label list no longer than a
    positive [maxTickCount] is returned exactly, in its original order.
    This holds for labels of any type and for every tick count, whole,
    fractional or infinite. *)
Theorem ordinal_ticks_round_trip :
  forall (A : Type) (maxTickCount : xnum) (labels : list A),
    (XNum.ofZ 0 <? maxTickCount)%xnum = true ->
    (XNum.ofZ (len labels) <=? maxTickCount)%xnum = true ->
    getRecommendedTickValuesForAnOrdinalRange maxTickCount labels = labels.
Proof.
  intros A maxTickCount labels Hpos Hlen.
  unfold getRecommendedTickValuesForAnOrdinalRange.
  destruct (maxTickCount <=? XNum.ofZ 0)%xnum eqn:H0.
  { destruct maxTickCount as [ | | q | ]; try discriminate.
    unfold XNum.ofZ in *. apply xltb_fin in Hpos. apply xleb_fin in H0.
    now apply Qlt_not_le in Hpos. }
  destruct (maxTickCount >? XNum.ofZ (len labels))%xnum eqn:H1;
    [ reflexivity | ].
  destruct (ordinal_guards _ _ H0 H1) as [-> | [q [-> [Hq Hle]]]];
    [ discriminate | ].
  unfold XNum.ofZ in Hlen. apply xleb_fin in Hlen.
  assert (Heq : (q == inject_Z (len labels))%Q) by now apply Qle_antisym.
  assert (Hnz : ~ (q == 0)%Q) by (intros E; rewrite E in Hq; discriminate).
  unfold XNum.floorOfQuotient.
  destruct (Qeq_bool q 0) eqn:Hz; [ now apply Qeq_bool_iff in Hz | ].
  assert (Hone : Qfloor (inject_Z (len labels) / q) = 1).
  { rewrite <- Heq. unfold Qdiv. rewrite Qmult_inv_r by assumption.
    reflexivity. }
  rewrite Hone.
  apply (ordinalLoop_step1 labels (List.length labels) 0 []). lia.
Qed.

(** C7 at three fruit labels and at most three ticks. *)
Lemma ordinal_ticks_round_trip_witness :
  getRecommendedTickValuesForAnOrdinalRange (XNum.ofZ 3)
    ["Apple"; "Orange"; "Kiwi"]%string
  = ["Apple"; "Orange"; "Kiwi"]%string.
Proof.
  apply (ordinal_ticks_round_trip string (XNum.ofZ 3)
           ["Apple"; "Orange"; "Kiwi"]%string); reflexivity.
Defined.

(** The ordinal scenarios: five labels at stride [floor(5 / 3) = 1] and at
    stride [floor(5 / 2) = 2]; and three labels at the fractional count
    1.9, stride [floor(3 / 1.9) = 1]. *)
Example ordinal_stride_1 :
  getRecommendedTickValuesForAnOrdinalRange (XNum.ofZ 3)
    ["Apple"; "Orange"; "Kiwi"; "Grapes"; "Banana"]%string
  = ["Apple"; "Orange"; "Kiwi"; "Grapes"; "Banana"]%string.
Proof. reflexivity. Qed.

Example ordinal_stride_2 :
  getRecommendedTickValuesForAnOrdinalRange (XNum.ofZ 2)
    ["Apple"; "Orange"; "Kiwi"; "Grapes"; "Banana"]%string
  = ["Apple"; "Kiwi"; "Banana"]%string.
Proof. reflexivity. Qed.

Example ordinal_fractional_count :
  getRecommendedTickValuesForAnOrdinalRange (XFin (19 # 10))
    ["Apple"; "Orange"; "Kiwi"]%string
  = ["Apple"; "Orange"; "Kiwi"]%string.
Proof. reflexivity. Qed.

(** At a count that is [NaN] the step is [NaN] and the loop runs once. *)
Example ordinal_NaN_count :
  getRecommendedTickValuesForAnOrdinalRange XNaN
    ["Apple"; "Orange"; "Kiwi"]%string
  = ["Apple"]%string.
Proof. reflexivity. Qed.

End OrdinalRoundTrip.

(** ** Quantitative tick values *)

Section QuantitativeTicks.

Local Open Scope Z_scope.

Lemma splice1_length (i : nat) (l : list number) :
  (i < List.length l)%nat ->
  List.length (splice1 i l) = (List.length l - 1)%nat.
Proof.
  intros Hi. unfold splice1.
  rewrite length_app, length_firstn, length_skipn. lia.
Qed.

Lemma spliceLoop_length (fuel i : nat) (l : list number) :
  (List.length (spliceLoop fuel i l) <= List.length l)%nat.
Proof.
  revert i l. induction fuel as [ | fuel IH]; intros i l; cbn [spliceLoop];
    [ lia | ].
  destruct (i <? List.length l)%nat eqn:Hi; [ | lia ].
  apply Nat.ltb_lt in Hi.
  specialize (IH (S i) (splice1 i l)). rewrite splice1_length in IH; lia.
Qed.

(** Every round of the [for] loop removes an element and moves [i] on, so
    [length] rounds are enough. *)
Lemma spliceLoop_fuel :
  forall fuel extra i (l : list number),
    (List.length l <= i + fuel)%nat ->
    spliceLoop (fuel + extra) i l = spliceLoop fuel i l.
Proof.
  induction fuel as [ | fuel IH]; intros extra i l Hfuel.
  - destruct extra as [ | extra]; [ reflexivity | ].
    cbn [Nat.add spliceLoop].
    destruct (i <? List.length l)%nat eqn:Hi; [ | reflexivity ].
    apply Nat.ltb_lt in Hi. lia.
  - cbn [Nat.add spliceLoop].
    destruct (i <? List.length l)%nat eqn:Hi; [ | reflexivity ].
    apply Nat.ltb_lt in Hi. apply IH. rewrite splice1_length; lia.
Qed.

Lemma splicePass_length (l : list number) :
  (List.length (splicePass l) <= List.length l)%nat.
Proof. apply spliceLoop_length. Qed.

Lemma splicePass_short (l : list number) :
  (List.length l <= 1)%nat -> splicePass l = l.
Proof.
  intros Hl. unfold splicePass.
  destruct l as [ | a [ | b l]]; cbn in *; try reflexivity. lia.
Qed.

Lemma splicePass_shrinks (l : list number) :
  (2 <= List.length l)%nat ->
  (List.length (splicePass l) < List.length l)%nat.
Proof.
  intros Hl. unfold splicePass.
  destruct l as [ | a [ | b l]]; cbn [List.length] in *; try lia.
  change (spliceLoop (S (S (List.length l))) 1 (a :: b :: l))
    with (spliceLoop (S (List.length l)) 2 (splice1 1 (a :: b :: l))).
  pose proof (spliceLoop_length (S (List.length l)) 2 (splice1 1 (a :: b :: l)))
    as H.
  rewrite splice1_length in H by (cbn [List.length]; lia).
  cbn [List.length] in H. lia.
Qed.

(** A pass keeps the elements at even positions. *)
Example splicePass_seven :
  splicePass (map ofZ [0; 1; 2; 3; 4; 5; 6]) = map ofZ [0; 2; 4; 6].
Proof. reflexivity. Qed.

(** Ticks one apart under a minimum interval of 3: two passes. *)
Example trimToMinInterval_seven :
  trimToMinInterval (Some (ofZ 3)) (map ofZ [0; 1; 2; 3; 4; 5; 6])
  = map ofZ [0; 4].
Proof. reflexivity. Qed.

Lemma trimLoop_length (fuel : nat) (tickInterval minInterval : number)
  (l : list number) :
  (List.length (trimLoop fuel tickInterval minInterval l)
   <= List.length l)%nat.
Proof.
  revert tickInterval l.
  induction fuel as [ | fuel IH]; intros tickInterval l; cbn [trimLoop];
    [ lia | ].
  destruct (_ && _)%bool; [ | lia ].
  specialize (IH (tickInterval * ofZ 2)%num (splicePass l)).
  pose proof (splicePass_length l). lia.
Qed.

Lemma trimLoop_short (fuel : nat) (tickInterval minInterval : number)
  (l : list number) :
  (List.length l <= 1)%nat -> trimLoop fuel tickInterval minInterval l = l.
Proof.
  revert tickInterval l.
  induction fuel as [ | fuel IH]; intros tickInterval l Hl; cbn [trimLoop];
    [ reflexivity | ].
  destruct (_ && _)%bool; [ | reflexivity ].
  rewrite splicePass_short by assumption. now apply IH.
Qed.

(** Once the list is down to one element more passes of the [while] loop
    change nothing: the value computed with [length] rounds of fuel is the
    value of the loop however long it runs. *)
Lemma trimLoop_fuel :
  forall fuel extra tickInterval minInterval (l : list number),
    (List.length l <= S fuel)%nat ->
    trimLoop (fuel + extra) tickInterval minInterval l
    = trimLoop fuel tickInterval minInterval l.
Proof.
  induction fuel as [ | fuel IH]; intros extra tickInterval minInterval l Hl.
  - cbn [Nat.add trimLoop]. now apply trimLoop_short.
  - cbn [Nat.add trimLoop].
    destruct (_ && _)%bool; [ | reflexivity ].
    apply IH.
    destruct (Nat.le_gt_cases (List.length l) 1) as [Hs | Hs].
    + rewrite splicePass_short by assumption. lia.
    + pose proof (splicePass_shrinks l Hs). lia.
Qed.

Lemma createTrueZeroTickLabel_length (l : list number) (epsilon : number) :
  List.length (createTrueZeroTickLabel l epsilon) = List.length l.
Proof.
  unfold createTrueZeroTickLabel.
  destruct l as [ | t0 [ | t1 l]]; try reflexivity. apply length_map.
Qed.

Lemma trimToMinInterval_length (minInterval : option number)
  (l : list number) :
  (List.length (trimToMinInterval minInterval l) <= List.length l)%nat.
Proof.
  unfold trimToMinInterval.
  destruct (truthyNumber minInterval) as [m | ]; [ | lia ].
  destruct l as [ | t0 [ | t1 l]]; [ lia | lia | ].
  pose proof (trimLoop_length (List.length (t0 :: t1 :: l))
                (t1 - t0)%num m (t0 :: t1 :: l)) as H.
  destruct (trimLoop _ _ _ _) as [ | a [ | b r]]; cbn [List.length] in *; lia.
Qed.

Lemma finishTicks_length (minInterval : option number) (l : list number) :
  len (finishTicks minInterval l) <= len l.
Proof.
  unfold finishTicks, len.
  pose proof (trimToMinInterval_length minInterval
                (createTrueZeroTickLabel l (lit 1 100000))) as H.
  rewrite createTrueZeroTickLabel_length in H. lia.
Qed.

(** The list the selector settles on, read off the three requests it may
    make to the generator. *)
Lemma quantitative_selection (maxTicks : xnum) (gen : xnum -> list number)
  (minInterval : option number) :
  (maxTicks === XNum.ofZ 0)%xnum = false ->
  getRecommendedTickValuesForAQuantitativeRange maxTicks
    (mkScale (Some gen)) minInterval
  = finishTicks minInterval
      (let first :=
         if ((XNum.ofZ (len (gen maxTicks)) >? maxTicks)
             && (maxTicks >? XNum.ofZ 1))%xnum
         then gen (maxTicks - XNum.ofZ 1)%xnum else gen maxTicks in
       if len first <? 2 then gen (maxTicks + XNum.ofZ 1)%xnum else first).
Proof.
  intros Hnz. unfold getRecommendedTickValuesForAQuantitativeRange.
  rewrite Hnz. reflexivity.
Qed.

(** C8. Quantitative tick retry.  When the generator has been asked (the
    count is not 0): if it yields more than [maxTicks] values at
    [maxTicks] and [maxTicks > 1], the list is taken again from the
    generator at [maxTicks - 1]; if the list held then has fewer than 2
    values, it is taken again from the generator at [maxTicks + 1]; the
    result is that list with near-zero ticks set to 0 and trimmed to the
    minimum interval.  In particular with [maxTicks = 5] and 6 generated
    candidates the generator is asked again at 4.  This holds for every
    tick count, whole or not. *)
Theorem quantitative_tick_retry :
  forall (maxTicks : xnum) (gen : xnum -> list number)
         (minInterval : option number),
    (maxTicks === XNum.ofZ 0)%xnum = false ->
    let result :=
      getRecommendedTickValuesForAQuantitativeRange maxTicks
        (mkScale (Some gen)) minInterval in
    ((maxTicks <? XNum.ofZ (len (gen maxTicks)))%xnum = true ->
     (XNum.ofZ 1 <? maxTicks)%xnum = true ->
     2 <= len (gen (maxTicks - XNum.ofZ 1)%xnum) ->
     result = finishTicks minInterval (gen (maxTicks - XNum.ofZ 1)%xnum))
    /\ ((maxTicks <? XNum.ofZ (len (gen maxTicks)))%xnum = true ->
        (XNum.ofZ 1 <? maxTicks)%xnum = true ->
        len (gen (maxTicks - XNum.ofZ 1)%xnum) < 2 ->
        result = finishTicks minInterval (gen (maxTicks + XNum.ofZ 1)%xnum))
    /\ ((maxTicks <? XNum.ofZ (len (gen maxTicks)))%xnum = false
        \/ (XNum.ofZ 1 <? maxTicks)%xnum = false ->
        len (gen maxTicks) < 2 ->
        result = finishTicks minInterval (gen (maxTicks + XNum.ofZ 1)%xnum))
    /\ ((maxTicks <? XNum.ofZ (len (gen maxTicks)))%xnum = false
        \/ (XNum.ofZ 1 <? maxTicks)%xnum = false ->
        2 <= len (gen maxTicks) ->
        result = finishTicks minInterval (gen maxTicks))
    /\ (maxTicks = XNum.ofZ 5 -> len (gen (XNum.ofZ 5)) = 6 ->
        result = finishTicks minInterval
                   (if len (gen (XNum.ofZ 4)) <? 2
                    then gen (XNum.ofZ 6) else gen (XNum.ofZ 4))).
Proof.
  intros maxTicks gen minInterval Hnz result. subst result.
  rewrite quantitative_selection by assumption. cbv zeta.
  unfold MinTickCount, XNum.gtb.
  repeat split.
  - intros H1 H2 H3. rewrite H1, H2. cbn [andb].
    replace (len (gen (maxTicks - XNum.ofZ 1)%xnum) <? 2) with false
      by (symmetry; lia).
    reflexivity.
  - intros H1 H2 H3. rewrite H1, H2. cbn [andb].
    replace (len (gen (maxTicks - XNum.ofZ 1)%xnum) <? 2) with true
      by (symmetry; lia).
    reflexivity.
  - intros H1 H2.
    replace ((maxTicks <? XNum.ofZ (len (gen maxTicks)))
             && (XNum.ofZ 1 <? maxTicks))%xnum
      with false by (symmetry; apply andb_false_iff; exact H1).
    replace (len (gen maxTicks) <? 2) with true by (symmetry; lia).
    reflexivity.
  - intros H1 H2.
    replace ((maxTicks <? XNum.ofZ (len (gen maxTicks)))
             && (XNum.ofZ 1 <? maxTicks))%xnum
      with false by (symmetry; apply andb_false_iff; exact H1).
    replace (len (gen maxTicks) <? 2) with false by (symmetry; lia).
    reflexivity.
  - intros -> H6. rewrite H6. reflexivity.
Qed.

(** C8 at [maxTicks = 5] with [sampleTicks], which yields the six ticks
    0, 20, ..., 100 when asked for 5 or for 4: the result comes from the
    request at 4. *)
Lemma quantitative_tick_retry_witness :
  getRecommendedTickValuesForAQuantitativeRange (XNum.ofZ 5)
    (mkScale (Some sampleTicks)) None
  = finishTicks None (sampleTicks (XNum.ofZ 5 - XNum.ofZ 1)%xnum).
Proof.
  apply (proj1 (quantitative_tick_retry (XNum.ofZ 5) sampleTicks None
                  eq_refl));
    [ reflexivity | reflexivity | vm_compute; discriminate ].
Defined.

(** The ordinal selector: no label at a count that is not positive, never
    more labels than it is given, fewer than [2 * maxTicks + 1] labels at
    a positive count, and at most [2 * maxTicks - 1] at a whole one. *)
Lemma ordinal_length_bounds {A : Type} (maxTicks : xnum) (labels : list A) :
  ((maxTicks <=? XNum.ofZ 0)%xnum = true ->
   getRecommendedTickValuesForAnOrdinalRange maxTicks labels = [])
  /\ len (getRecommendedTickValuesForAnOrdinalRange maxTicks labels)
     <= len labels
  /\ (forall q : Q,
         maxTicks = XFin q -> (0 < q)%Q ->
         (inject_Z
            (len (getRecommendedTickValuesForAnOrdinalRange maxTicks labels))
          < 2 * q + 1)%Q)
  /\ (forall z : Z,
         maxTicks = XNum.ofZ z -> 1 <= z ->
         len (getRecommendedTickValuesForAnOrdinalRange maxTicks labels)
         <= 2 * z - 1).
Proof.
  unfold getRecommendedTickValuesForAnOrdinalRange.
  pose proof (len_nonneg labels) as Hlen.
  split; [ now intros -> | ].
  destruct (maxTicks <=? XNum.ofZ 0)%xnum eqn:H0.
  { change (len (@nil A)) with 0. repeat split; try lia.
    intros q _ Hq. destruct q as [a b].
    unfold Qlt, Qplus, Qmult, inject_Z in *. cbn [Qnum Qden] in *. nia. }
  destruct (maxTicks >? XNum.ofZ (len labels))%xnum eqn:H1.
  { repeat split; try lia.
    - intros q -> Hq. unfold XNum.ofZ, XNum.gtb in H1. apply xltb_fin in H1.
      destruct q as [a b]. unfold Qlt, Qplus, Qmult, inject_Z in *.
      cbn [Qnum Qden] in *. nia.
    - intros z -> Hz. unfold XNum.ofZ, XNum.gtb in H1. apply xltb_fin in H1.
      rewrite <- Zlt_Qlt in H1. lia. }
  destruct (ordinal_guards _ _ H0 H1) as [-> | [q [-> [Hq Hle]]]].
  { cbn [XNum.floorOfQuotient ordinalLoop].
    assert (Hone : len (if 0 <? len labels then pushLabel labels 0 []
                        else []) <= len labels).
    { destruct (0 <? len labels) eqn:Hl; [ | exact Hlen ].
      apply Z.ltb_lt in Hl.
      destruct (pushLabel_inside labels 0 [] ltac:(lia)) as [l [_ ->]].
      change (len ([] ++ [l])) with 1. lia. }
    repeat split; [ exact Hone | discriminate | discriminate ]. }
  assert (Hnz : Qeq_bool q 0 = false).
  { destruct (Qeq_bool q 0) eqn:Hz; [ | reflexivity ].
    apply Qeq_bool_iff in Hz. rewrite Hz in Hq. discriminate. }
  unfold XNum.floorOfQuotient. rewrite Hnz.
  pose proof (ordinal_step_positive _ _ Hq Hle) as Hstep.
  destruct (floor_quotient_bounds (len labels) q Hq) as [Hlo Hhi].
  set (step := Qfloor (inject_Z (len labels) / q)) in *.
  set (k := (len labels + step - 1) / step).
  pose proof (Z.div_mod (len labels + step - 1) step ltac:(lia)) as Hdm.
  pose proof (Z.mod_pos_bound (len labels + step - 1) step ltac:(lia)) as Hmod.
  fold k in Hdm.
  assert (Hk0 : 0 <= k) by (apply Z.div_pos; lia).
  pose proof (ordinalLoop_length labels step Hstep (List.length labels) 0 []
                k ltac:(lia) Hk0 ltac:(lia)) as Hcount.
  change (len (@nil A)) with 0 in Hcount.
  set (count := len (ordinalLoop (List.length labels) labels step 0 [])) in *.
  repeat split.
  - pose proof (ordinalLoop_length labels step Hstep (List.length labels) 0 []
                  (len labels) ltac:(lia) Hlen ltac:(nia)) as H.
    change (len (@nil A)) with 0 in H. exact H.
  - intros q' E Hq'. injection E as <-.
    assert (Hks : (k - 1) * step < len labels) by lia.
    destruct q as [a b]. unfold Qlt, Qle, Qplus, Qmult, inject_Z in *.
    cbn [Qnum Qden] in *.
    assert (Ha : 0 < a) by lia.
    assert (Hkb : (k - 1) * Z.pos b * step < 2 * a * step) by nia.
    assert (Hk : (k - 1) * Z.pos b < 2 * a) by nia.
    nia.
  - intros z E Hz. unfold XNum.ofZ in E. injection E as ->.
    subst count. clear Hcount Hdm Hmod Hk0. subst k step.
    rewrite floor_quotient_whole in * by lia.
    rewrite <- Zle_Qle in Hle.
    pose proof (Z.div_mod (len labels) z ltac:(lia)) as Hdm'.
    pose proof (Z.mod_pos_bound (len labels) z ltac:(lia)) as Hmod'.
    pose proof (ordinalLoop_length labels _ Hstep (List.length labels) 0 []
                  (2 * z - 1) ltac:(lia) ltac:(lia) ltac:(nia)) as H.
    change (len (@nil A)) with 0 in H. lia.
Qed.

(** The date-time selector returns values of the sequence generator, or
    the two bounds of the domain. *)
Lemma datetime_length_bound
  (calculate : number -> number -> xnum -> list number) (maxTicks : xnum)
  (dataDomain : number * number) :
  len (getRecommendedTickValuesForADateTimeRange calculate maxTicks dataDomain)
  <= Z.max 2 (len (calculate (fst dataDomain) (snd dataDomain) maxTicks)).
Proof.
  unfold getRecommendedTickValuesForADateTimeRange, ensureValuesInRange.
  cbv zeta.
  match goal with |- context [filter ?f ?l] =>
    pose proof (filter_length_le f l) as Hf end.
  destruct (len (filter _ _) <? 2).
  - change (len [_; _]) with 2. lia.
  - unfold len. lia.
Qed.

(** The quantitative selector returns no more values than the generator
    yields at the counts it may be asked for. *)
Lemma quantitative_length_bound (maxTicks : xnum) (scale : GenericScale)
  (minInterval : option number) (B : Z) :
  0 <= B ->
  (forall gen count,
      ticks scale = Some gen ->
      count = maxTicks \/ count = (maxTicks - XNum.ofZ 1)%xnum
      \/ count = (maxTicks + XNum.ofZ 1)%xnum ->
      len (gen count) <= B) ->
  len (getRecommendedTickValuesForAQuantitativeRange maxTicks scale
         minInterval) <= B.
Proof.
  intros HB Hgen.
  destruct scale as [[gen | ]].
  - destruct (maxTicks === XNum.ofZ 0)%xnum eqn:Hnz.
    + unfold getRecommendedTickValuesForAQuantitativeRange. rewrite Hnz.
      exact HB.
    + rewrite quantitative_selection by assumption.
      eapply Z.le_trans; [ apply finishTicks_length | ].
      cbv zeta. cbn [ticks] in Hgen.
      repeat match goal with
             | |- context [if ?c then _ else _] => destruct c
             end; apply Hgen; try reflexivity; auto.
  - unfold getRecommendedTickValuesForAQuantitativeRange. cbn [ticks].
    destruct (maxTicks === XNum.ofZ 0)%xnum; exact HB.
Qed.

(** C2, as stated, fails.  Six ticks at most over ten labels give step
    [floor(10 / 6) = 1] and so all ten labels, more than 6 + 1 (the case
    of the TODO note in the source).  And the quantitative selector
    returns what the generator gives it: with [tenTicks], which yields the
    ten ticks 0, 1, ..., 9 at every count (as a linear D3 scale over
    [0, 9.2] does at counts 7 and 8), 8 ticks at most give ten values. *)
Lemma tick_count_bound_fails :
  ~ (forall (maxTicks : xnum) (labels : list string),
        (XNum.ofZ 0 <=? maxTicks)%xnum = true ->
        (XNum.ofZ
           (len (getRecommendedTickValuesForAnOrdinalRange maxTicks labels))
         <=? maxTicks + XNum.ofZ 1)%xnum = true)
  /\ ~ (forall (maxTicks : xnum) (scale : GenericScale)
               (minInterval : option number),
          (XNum.ofZ 0 <=? maxTicks)%xnum = true ->
          (XNum.ofZ
             (len (getRecommendedTickValuesForAQuantitativeRange maxTicks
                     scale minInterval))
           <=? maxTicks + XNum.ofZ 1)%xnum = true).
Proof.
  split; intros H.
  - specialize (H (XNum.ofZ 6)
                  ["a"; "b"; "c"; "d"; "e"; "f"; "g"; "h"; "i"; "j"]%string
                  eq_refl).
    vm_compute in H. discriminate.
  - specialize (H (XNum.ofZ 8) (mkScale (Some tenTicks)) None eq_refl).
    vm_compute in H. discriminate.
Qed.

(** C2, amended.  Tick selection ([getRecommendedTickValues]) takes one of
    three branches, and the number of values it returns is bounded in
    each, for every tick count, whole or fractional.

    - Ordinal branch (the axis is not scalar, or the scale is ordinal): no
      label when [maxTicks <= 0], never more labels than the domain has,
      fewer than [2 * maxTicks + 1] labels when [maxTicks > 0], and at
      most [2 * maxTicks - 1] labels when [maxTicks] is a whole number
      from 1 on.
    - Date-time branch: no more values than the sequence generator yields
      for the domain, or two (the bounds of the domain) if that is more.
    - Quantitative branch: no more values than the tick generator yields
      at the counts it may be asked for, [maxTicks - 1], [maxTicks] and
      [maxTicks + 1]: a bound [B >= 0] on these three lists is a bound on
      the result, so the result has at most [maxTicks + 1] values when
      the generator keeps to [maxTicks + 1] at these counts. *)
Theorem tick_count_bounds :
  forall (A : Type) (asNumber : A -> number)
         (calculate : number -> number -> xnum -> list number)
         (maxTicks : xnum) (scale : AxisScale A)
         (axisType : option AxisValueType) (isScalar : bool)
         (minTickInterval : option number) (B : Z),
    let labels := scaleDomain scale in
    let sequence :=
      calculate (domainBound asNumber labels 0)
        (domainBound asNumber labels 1) maxTicks in
    let count :=
      tickCount
        (getRecommendedTickValues asNumber calculate maxTicks scale axisType
           isScalar minTickInterval) in
    (negb isScalar || isOrdinalScale scale = true ->
     ((maxTicks <=? XNum.ofZ 0)%xnum = true -> count = 0)
     /\ count <= len labels
     /\ (forall q : Q,
            maxTicks = XFin q -> (0 < q)%Q ->
            (inject_Z count < 2 * q + 1)%Q)
     /\ (forall z : Z,
            maxTicks = XNum.ofZ z -> 1 <= z -> count <= 2 * z - 1))
    /\ (negb isScalar || isOrdinalScale scale = false ->
        isDateTime axisType = true ->
        count <= Z.max 2 (len sequence))
    /\ (negb isScalar || isOrdinalScale scale = false ->
        isDateTime axisType = false ->
        0 <= B ->
        (forall gen n,
            ticks (generic scale) = Some gen ->
            n = maxTicks \/ n = (maxTicks - XNum.ofZ 1)%xnum
            \/ n = (maxTicks + XNum.ofZ 1)%xnum ->
            len (gen n) <= B) ->
        count <= B).
Proof.
  intros A asNumber calculate maxTicks scale axisType isScalar minInterval B
    labels sequence count.
  subst count. unfold getRecommendedTickValues.
  split; [ | split ].
  - intros ->. cbn [tickCount]. fold labels.
    destruct (ordinal_length_bounds maxTicks labels)
      as [Hnone [Hle [Hfrac Hwhole]]].
    split; [ | split; [ | split ] ]; try assumption.
    intros H0. now rewrite (Hnone H0).
  - intros -> ->. cbn [tickCount].
    apply (datetime_length_bound calculate maxTicks
             (domainBound asNumber labels 0, domainBound asNumber labels 1)).
  - intros -> -> HB Hgen. cbn [tickCount].
    now apply quantitative_length_bound.
Qed.

(** The amended C2 at the fractional count 1.9 over three labels on an
    ordinal axis (three labels, fewer than [2 * 1.9 + 1]), at [maxTicks =
    2] over five labels (three labels, the bound [2 * 2 - 1]), and at
    [maxTicks = 5] on a scalar axis with [sampleTicks] (six values, the
    bound [5 + 1]). *)
Lemma tick_count_bounds_witness :
  (inject_Z
     (tickCount
        (getRecommendedTickValues (fun _ : string => NaN)
           (fun _ _ _ => []) (XFin (19 # 10))
           (mkAxisScale string false ["Apple"; "Orange"; "Kiwi"]%string
              (mkScale None))
           None false None))
   < 2 * (19 # 10) + 1)%Q
  /\ tickCount
       (getRecommendedTickValues (fun _ : string => NaN)
          (fun _ _ _ => []) (XNum.ofZ 2)
          (mkAxisScale string false
             ["Apple"; "Orange"; "Kiwi"; "Grapes"; "Banana"]%string
             (mkScale None))
          None false None)
     <= 2 * 2 - 1
  /\ tickCount
       (getRecommendedTickValues (fun n : number => n)
          (fun _ _ _ => []) (XNum.ofZ 5)
          (mkAxisScale number true [ofZ 0; ofZ 100]
             (mkScale (Some sampleTicks)))
          None true None)
     <= 5 + 1.
Proof.
  pose proof (tick_count_bounds string (fun _ : string => NaN)
                (fun _ _ _ => []) (XFin (19 # 10))
                (mkAxisScale string false ["Apple"; "Orange"; "Kiwi"]%string
                   (mkScale None))
                None false None 0) as Hfrac.
  pose proof (tick_count_bounds string (fun _ : string => NaN)
                (fun _ _ _ => []) (XNum.ofZ 2)
                (mkAxisScale string false
                   ["Apple"; "Orange"; "Kiwi"; "Grapes"; "Banana"]%string
                   (mkScale None))
                None false None 0) as Hord.
  pose proof (tick_count_bounds number (fun n : number => n)
                (fun _ _ _ => []) (XNum.ofZ 5)
                (mkAxisScale number true [ofZ 0; ofZ 100]
                   (mkScale (Some sampleTicks)))
                None true None 6) as Hquant.
  cbv zeta in Hfrac, Hord, Hquant.
  split; [ | split ].
  - apply Hfrac; reflexivity.
  - apply Hord; [ reflexivity | reflexivity | lia ].
  - apply Hquant; [ reflexivity | reflexivity | lia | ].
    intros gen n Hgen Hn. cbn [generic ticks] in Hgen. injection Hgen as <-.
    unfold sampleTicks.
    destruct ((n === XNum.ofZ 5) || (n === XNum.ofZ 4))%xnum;
      vm_compute; discriminate.
Defined.

End QuantitativeTicks.

(** ** Truncation with an ellipsis *)

Section Truncation.

Import TextMeasurementService.
Local Open Scope Z_scope.

Lemma string_length_append (s t : string) :
  String.length (s ++ t) = (String.length s + String.length t)%nat.
Proof. induction s as [ | c s IH]; cbn; [ reflexivity | now rewrite IH ]. Qed.

Lemma substring_length (s : string) :
  forall n m,
    String.length (substring n m s) = Nat.min m (String.length s - n).
Proof.
  induction s as [ | c s IH]; intros n m.
  - destruct n, m; cbn; lia.
  - destruct n as [ | n].
    + destruct m as [ | m]; cbn [substring String.length]; [ lia | ].
      rewrite IH. lia.
    + cbn [substring String.length]. rewrite IH. lia.
Qed.

Lemma substr_length (start length : Z) (s : string) :
  0 <= start -> 0 <= length -> start + length <= strlen s ->
  strlen (substr start length s) = length.
Proof.
  intros Hs Hl Hfit. unfold substr, strlen in *.
  destruct (length <=? 0) eqn:H0.
  - apply Z.leb_le in H0. cbn. lia.
  - rewrite substring_length. lia.
Qed.

Lemma withText_text (properties : TextProperties) :
  withText properties (text properties) = properties.
Proof. now destruct properties. Qed.

Variable measureText : string -> string -> Q.
Variable properties : TextProperties.

(** The width of a string in the font of [properties]. *)
Let width (s : string) : Q :=
  measureSvgTextWidth measureText (withText properties s).

(** The measurer is monotonic in the length of the measured string. *)
Hypothesis monotonic :
  forall s t : string,
    (String.length s <= String.length t)%nat -> (width s <= width t)%Q.

Variable fullText : string.

(** A width budget that is a finite number. *)
Variable maxWidth : Q.

Let prefix (j : Z) : string := substr 0 j fullText.

Lemma prefix_monotonic (j k : Z) :
  j <= k -> (width (prefix j) <= width (prefix k))%Q.
Proof.
  intros Hjk. apply monotonic. unfold prefix, substr.
  destruct (j <=? 0) eqn:Hj; [ cbn; lia | ].
  destruct (k <=? 0) eqn:Hk; [ lia | ].
  rewrite !substring_length. lia.
Qed.

(** What the search guarantees about its last midpoint: it is a length of
    the text, and if its prefix is too wide then every shorter prefix
    fits with room to spare. *)
Let searched (i : Z) : Prop :=
  1 <= i <= strlen fullText
  /\ ((maxWidth < width (prefix i))%Q ->
      forall j, 1 <= j < i -> (width (prefix j) < maxWidth)%Q).

Lemma searchLoop_searched :
  forall fuel min max i,
    1 <= min -> min <= max + 1 -> max <= strlen fullText ->
    (forall j, 1 <= j < min -> (width (prefix j) < maxWidth)%Q) ->
    (max < min -> searched i) ->
    max + 1 - min <= Z.of_nat fuel ->
    searched (searchLoop measureText fuel properties fullText (XFin maxWidth)
                min max i).
Proof.
  induction fuel as [ | fuel IH];
    intros min max i Hmin Hle Hmax Hbelow Hexit Hfuel; cbn [searchLoop].
  - apply Hexit. cbn in Hfuel. lia.
  - destruct (min <=? max) eqn:Hmm; [ | apply Hexit; lia ].
    apply Z.leb_le in Hmm.
    assert (Hmid : min <= Z.quot (min + max) 2 <= max).
    { rewrite Z.quot_div_nonneg by lia.
      pose proof (Z.div_mod (min + max) 2 ltac:(lia)).
      pose proof (Z.mod_pos_bound (min + max) 2 ltac:(lia)). lia. }
    set (mid := Z.quot (min + max) 2) in *.
    fold (prefix mid). fold (width (prefix mid)). unfold XNum.gtb.
    destruct (XFin (width (prefix mid)) <? XFin maxWidth)%xnum eqn:Hroom.
    + (* room left: min = mid + 1 *)
      apply xltb_fin in Hroom.
      apply IH; try lia.
      * intros j Hj. eapply Qle_lt_trans; [ | exact Hroom ].
        apply prefix_monotonic. lia.
      * intros _. split; [ lia | ].
        intros Hwide. exfalso.
        apply (Qlt_irrefl maxWidth). eapply Qlt_trans; eassumption.
    + apply xltb_fin_false in Hroom.
      destruct (XFin maxWidth <? XFin (width (prefix mid)))%xnum eqn:Hwide.
      * (* too wide: max = mid - 1 *)
        apply IH; try lia.
        -- assumption.
        -- intros Hstop. assert (mid = min) as Heq by lia.
           split; [ lia | ]. intros _ j Hj. apply Hbelow. lia.
      * (* exact match *)
        apply xltb_fin_false in Hwide. split; [ lia | ].
        intros Hlt. now apply Qlt_not_le in Hlt.
Qed.

End Truncation.

Section TruncationFuel.

Import TextMeasurementService.
Local Open Scope Z_scope.

(** The interval shrinks in every round, so fuel beyond its size is never
    used, whatever the width budget. *)
Lemma searchLoop_fuel (measureText : string -> string -> Q)
  (properties : TextProperties) (fullText : string) (maxWidth : xnum) :
  forall fuel extra min max i,
    0 <= min -> max + 1 - min <= Z.of_nat fuel ->
    searchLoop measureText (fuel + extra) properties fullText maxWidth
      min max i
    = searchLoop measureText fuel properties fullText maxWidth min max i.
Proof.
  induction fuel as [ | fuel IH]; intros extra min max i Hmin Hfuel.
  - destruct extra as [ | extra]; [ reflexivity | ].
    cbn [Nat.add searchLoop].
    destruct (min <=? max) eqn:Hmm; [ | reflexivity ].
    apply Z.leb_le in Hmm. cbn in Hfuel. lia.
  - cbn [Nat.add searchLoop].
    destruct (min <=? max) eqn:Hmm; [ | reflexivity ].
    apply Z.leb_le in Hmm.
    assert (Hmid : min <= Z.quot (min + max) 2 <= max).
    { rewrite Z.quot_div_nonneg by lia.
      pose proof (Z.div_mod (min + max) 2 ltac:(lia)).
      pose proof (Z.mod_pos_bound (min + max) 2 ltac:(lia)). lia. }
    destruct (_ >? _)%xnum; [ apply IH; lia | ].
    destruct (_ <? _)%xnum; [ apply IH; lia | reflexivity ].
Qed.

End TruncationFuel.

Section TruncationFits.

Import TextMeasurementService.
Local Open Scope Z_scope.

(** C3, as stated, fails: the result always ends with the ellipsis
    marker, even when the marker alone is wider than [maxWidth].  At 10
    pixels per character, ["Hello World"] in 20 pixels is cut down to
    ["..."], which measures 30 pixels. *)
Lemma truncation_overflows_below_ellipsis_width :
  ~ (forall (measureText : string -> string -> Q)
            (properties : TextProperties) (maxWidth : xnum),
        (forall s t : string,
            (String.length s <= String.length t)%nat ->
            (measureSvgTextWidth measureText (withText properties s)
             <= measureSvgTextWidth measureText (withText properties t))%Q) ->
        (XFin
           (measureSvgTextWidth measureText
              (withText properties
                 (getTailoredTextOrDefault measureText properties maxWidth)))
         <=? maxWidth)%xnum = true).
Proof.
  intros H.
  specialize (H tenPixelsPerChar
                (mkProps "Hello World" "Arial" "10px") (XNum.ofZ 20)).
  assert (Hmono : forall s t : string,
             (String.length s <= String.length t)%nat ->
             (measureSvgTextWidth tenPixelsPerChar
                (withText (mkProps "Hello World" "Arial" "10px") s)
              <= measureSvgTextWidth tenPixelsPerChar
                   (withText (mkProps "Hello World" "Arial" "10px") t))%Q).
  { intros s t Hst. unfold measureSvgTextWidth, tenPixelsPerChar, strlen.
    cbn [text withText]. rewrite <- Zle_Qle. lia. }
  specialize (H Hmono). vm_compute in H. discriminate.
Qed.

(** The amended C3 for a width budget that is a finite number. *)
Lemma truncation_fits_finite (measureText : string -> string -> Q)
  (properties : TextProperties) (maxWidth : Q) :
  (forall s t : string,
      (String.length s <= String.length t)%nat ->
      (measureSvgTextWidth measureText (withText properties s)
       <= measureSvgTextWidth measureText (withText properties t))%Q) ->
  (measureSvgTextWidth measureText (withText properties dotsString)
   <= maxWidth)%Q ->
  (measureSvgTextWidth measureText
     (withText properties
        (getTailoredTextOrDefault measureText properties (XFin maxWidth)))
   <= maxWidth)%Q.
Proof.
  intros Hmono Hdots.
  unfold getTailoredTextOrDefault.
  destruct (strlen (text properties) =? 0) eqn:Hempty.
  { (* the empty text is no wider than the marker *)
    apply Z.eqb_eq in Hempty. eapply Qle_trans; [ | exact Hdots ].
    apply Hmono. unfold strlen in Hempty. lia. }
  apply Z.eqb_neq in Hempty.
  destruct (XFin (measureSvgTextWidth measureText properties)
            <? XFin maxWidth)%xnum eqn:Hfits.
  { (* the text fits as it is *)
    rewrite withText_text. apply Qlt_le_weak. now apply xltb_fin. }
  clear Hfits.
  set (full := (dotsString ++ text properties)%string).
  assert (Hfull : strlen full = 3 + strlen (text properties))
    by (unfold full, strlen; rewrite string_length_append;
        change (String.length dotsString) with 3%nat; lia).
  assert (Hpos : 0 < strlen (text properties))
    by (unfold strlen in *; lia).
  pose proof (searchLoop_searched measureText properties Hmono full
                maxWidth (String.length full) 1 (strlen full) 3
                ltac:(lia) ltac:(lia) ltac:(lia) ltac:(intros; lia)
                ltac:(intros; lia) ltac:(unfold strlen; lia))
    as [Hrange Hwide].
  set (i := searchLoop measureText (String.length full) properties full
              (XFin maxWidth) 1 (strlen full) 3) in *.
  assert (Hgoal :
           forall i', 0 <= i' <= strlen full ->
             (3 < i' ->
              (measureSvgTextWidth measureText
                 (withText properties (substr 0 i' full)) <= maxWidth)%Q) ->
             (measureSvgTextWidth measureText
                (withText properties
                   (substr 3 (i' - 3) full ++ dotsString)%string)
              <= maxWidth)%Q).
  { intros i' Hi' Hfit.
    destruct (Z_le_gt_dec i' 3) as [Hsmall | Hbig].
    - unfold substr at 1.
      replace (i' - 3 <=? 0) with true by (symmetry; lia).
      exact Hdots.
    - eapply Qle_trans; [ | apply Hfit; lia ].
      apply Hmono.
      pose proof (substr_length 3 (i' - 3) full ltac:(lia) ltac:(lia)
                    ltac:(lia)) as H3.
      pose proof (substr_length 0 i' full ltac:(lia) ltac:(lia)
                    ltac:(lia)) as H0.
      unfold strlen in H3, H0. rewrite string_length_append.
      change (String.length dotsString) with 3%nat. lia. }
  unfold XNum.gtb.
  destruct (XFin maxWidth
            <? XFin (measureSvgTextWidth measureText
                       (withText properties (substr 0 i full))))%xnum
    eqn:Hcmp.
  - (* the last midpoint is too wide: one step back fits *)
    apply xltb_fin in Hcmp.
    apply Hgoal; try lia. intros Hbig.
    apply Qlt_le_weak. apply Hwide; [ exact Hcmp | lia ].
  - (* the last midpoint fits exactly or with room to spare *)
    apply xltb_fin_false in Hcmp.
    apply Hgoal; try lia. intros _. exact Hcmp.
Qed.

(** C3, amended.  Given a text measurer whose reported width is
    monotonically non-decreasing in the length of the measured string,
    and a [maxWidth] in which the ellipsis marker alone fits,
    [getTailoredTextOrDefault] returns a string whose measured width,
    the appended marker included, is at most [maxWidth]. *)
Theorem truncation_fits_when_ellipsis_fits :
  forall (measureText : string -> string -> Q)
         (properties : TextProperties) (maxWidth : xnum),
    (forall s t : string,
        (String.length s <= String.length t)%nat ->
        (measureSvgTextWidth measureText (withText properties s)
         <= measureSvgTextWidth measureText (withText properties t))%Q) ->
    (XFin (measureSvgTextWidth measureText (withText properties dotsString))
     <=? maxWidth)%xnum = true ->
    (XFin
       (measureSvgTextWidth measureText
          (withText properties
             (getTailoredTextOrDefault measureText properties maxWidth)))
     <=? maxWidth)%xnum = true.
Proof.
  intros measureText properties maxWidth Hmono Hdots.
  destruct maxWidth as [ | | maxWidth | ];
    [ discriminate | discriminate | | reflexivity ].
  apply xleb_fin in Hdots. apply xleb_fin.
  now apply truncation_fits_finite.
Qed.

(** The amended C3 on the scenario of the specification: at 10 pixels per
    character, ["Hello World"] in 50 pixels becomes ["He..."], exactly 50
    pixels wide. *)
Lemma truncation_fits_when_ellipsis_fits_witness :
  (XFin
     (measureSvgTextWidth tenPixelsPerChar
        (withText (mkProps "Hello World" "Arial" "10px")
           (getTailoredTextOrDefault tenPixelsPerChar
              (mkProps "Hello World" "Arial" "10px") (XNum.ofZ 50))))
   <=? XNum.ofZ 50)%xnum = true
  /\ getTailoredTextOrDefault tenPixelsPerChar
       (mkProps "Hello World" "Arial" "10px") (XNum.ofZ 50)
     = "He..."%string.
Proof.
  split; [ | reflexivity ].
  apply (truncation_fits_when_ellipsis_fits tenPixelsPerChar
           (mkProps "Hello World" "Arial" "10px") (XNum.ofZ 50)).
  - intros s t Hst. unfold measureSvgTextWidth, tenPixelsPerChar, strlen.
    cbn [text withText]. rewrite <- Zle_Qle. lia.
  - reflexivity.
Defined.

(** At a width budget that is [NaN] the search stops at its first
    midpoint, 7 of the 14 characters of ["...Hello World"]. *)
Example truncation_at_NaN :
  getTailoredTextOrDefault tenPixelsPerChar
    (mkProps "Hello World" "Arial" "10px") XNaN
  = "Hell..."%string.
Proof. reflexivity. Qed.

End TruncationFits.

(** * Further properties of the source *)

(** ** The order of numbers *)

Section NumberOrder.

Local Open Scope Z_scope.

Lemma lexCompare_Lt (a b : Z * Z * Z) : lexCompare a b = Lt <-> keyLt a b.
Proof.
  destruct a as [[a1 a2] a3], b as [[b1 b2] b3]. unfold lexCompare, keyLt.
  destruct (Z.compare_spec a1 b1); destruct (Z.compare_spec a2 b2);
    destruct (Z.compare_spec a3 b3); split; intros; try discriminate;
    try reflexivity; lia.
Qed.

Lemma lexCompare_Gt (a b : Z * Z * Z) : lexCompare a b = Gt <-> keyLt b a.
Proof.
  destruct a as [[a1 a2] a3], b as [[b1 b2] b3]. unfold lexCompare, keyLt.
  destruct (Z.compare_spec a1 b1); destruct (Z.compare_spec a2 b2);
    destruct (Z.compare_spec a3 b3); split; intros; try discriminate;
    try reflexivity; lia.
Qed.

Lemma lexCompare_Eq (a b : Z * Z * Z) : lexCompare a b = Eq <-> a = b.
Proof.
  destruct a as [[a1 a2] a3], b as [[b1 b2] b3]. unfold lexCompare.
  destruct (Z.compare_spec a1 b1); destruct (Z.compare_spec a2 b2);
    destruct (Z.compare_spec a3 b3); split; intros H'; try discriminate;
    try reflexivity; try (injection H' as -> -> ->; lia); subst; reflexivity.
Qed.

(** Away from [NaN], comparing two numbers is comparing their keys. *)
Lemma SFcompare_key (x y : number) :
  isNaN x = false -> isNaN y = false ->
  SFcompare x y = Some (lexCompare (orderKey x) (orderKey y)).
Proof.
  destruct x as [[ | ] | [ | ] | | [ | ] m1 e1];
    destruct y as [[ | ] | [ | ] | | [ | ] m2 e2];
    intros Hx Hy; try discriminate; try reflexivity.
  (* two negative finite numbers: exponent and mantissa compare reversed *)
  cbn. rewrite Z.compare_opp, (Z.compare_antisym e1 e2).
  destruct (e1 ?= e2); reflexivity.
Qed.

Lemma SFcompare_NaN (x y : number) :
  isNaN x = true \/ isNaN y = true -> SFcompare x y = None.
Proof.
  intros [H | H]; destruct x; try discriminate; destruct y; try discriminate;
    reflexivity.
Qed.

Lemma SFcompare_Some (x y : number) (c : comparison) :
  SFcompare x y = Some c ->
  isNaN x = false /\ isNaN y = false
  /\ lexCompare (orderKey x) (orderKey y) = c.
Proof.
  intros H.
  destruct (isNaN x) eqn:Hx;
    [ rewrite SFcompare_NaN in H by (now left); discriminate | ].
  destruct (isNaN y) eqn:Hy;
    [ rewrite SFcompare_NaN in H by (now right); discriminate | ].
  rewrite SFcompare_key in H by assumption. now injection H.
Qed.

Lemma ltb_key (x y : number) :
  (x <? y)%num = true
  <-> isNaN x = false /\ isNaN y = false /\ keyLt (orderKey x) (orderKey y).
Proof.
  unfold ltb, SFltb. split.
  - destruct (SFcompare x y) as [[ | | ] | ] eqn:H; try discriminate.
    apply SFcompare_Some in H. now rewrite <- lexCompare_Lt.
  - intros (Hx & Hy & H). rewrite SFcompare_key by assumption.
    apply lexCompare_Lt in H. now rewrite H.
Qed.

Lemma leb_key (x y : number) :
  (x <=? y)%num = true
  <-> isNaN x = false /\ isNaN y = false /\ ~ keyLt (orderKey y) (orderKey x).
Proof.
  unfold leb, SFleb. split.
  - destruct (SFcompare x y) as [[ | | ] | ] eqn:H; try discriminate;
      intros _; apply SFcompare_Some in H; destruct H as (Hx & Hy & H);
      repeat split; try assumption; rewrite <- lexCompare_Gt; congruence.
  - intros (Hx & Hy & H). rewrite SFcompare_key by assumption.
    rewrite <- lexCompare_Gt in H.
    destruct (lexCompare (orderKey x) (orderKey y)); congruence.
Qed.

Lemma eqb_key (x y : number) :
  (x === y)%num = true
  <-> isNaN x = false /\ isNaN y = false /\ orderKey x = orderKey y.
Proof.
  unfold eqb, SFeqb. split.
  - destruct (SFcompare x y) as [[ | | ] | ] eqn:H; try discriminate.
    apply SFcompare_Some in H. now rewrite <- lexCompare_Eq.
  - intros (Hx & Hy & H). rewrite SFcompare_key by assumption.
    apply lexCompare_Eq in H. now rewrite H.
Qed.

End NumberOrder.

(** Turns every comparison of numbers in the goal and the hypotheses into
    a statement on keys and leaves the arithmetic to [lia]. *)
Ltac num_order_hyps :=
  repeat match goal with
    | H : (_ <? _)%num = true |- _ => apply ltb_key in H
    | H : (_ <=? _)%num = true |- _ => apply leb_key in H
    | H : (_ === _)%num = true |- _ => apply eqb_key in H
    | H : (_ >? _)%num = true |- _ => unfold gtb in H; apply ltb_key in H
    | H : (_ >=? _)%num = true |- _ => unfold geb in H; apply leb_key in H
    | H : (_ <? _)%num = false |- _ =>
        apply Bool.not_true_iff_false in H; rewrite ltb_key in H
    | H : (_ <=? _)%num = false |- _ =>
        apply Bool.not_true_iff_false in H; rewrite leb_key in H
    | H : (_ === _)%num = false |- _ =>
        apply Bool.not_true_iff_false in H; rewrite eqb_key in H
    | H : (_ >? _)%num = false |- _ =>
        unfold gtb in H; apply Bool.not_true_iff_false in H;
        rewrite ltb_key in H
    | H : (_ >=? _)%num = false |- _ =>
        unfold geb in H; apply Bool.not_true_iff_false in H;
        rewrite leb_key in H
    end.

Ltac num_order_goal :=
  unfold gtb, geb;
  match goal with
  | |- (_ <? _)%num = true => apply ltb_key
  | |- (_ <=? _)%num = true => apply leb_key
  | |- (_ === _)%num = true => apply eqb_key
  | |- (_ <? _)%num = false =>
      apply Bool.not_true_iff_false; rewrite ltb_key
  | |- (_ <=? _)%num = false =>
      apply Bool.not_true_iff_false; rewrite leb_key
  | |- (_ === _)%num = false =>
      apply Bool.not_true_iff_false; rewrite eqb_key
  | |- _ => idtac
  end.

Section NumberOrderFacts.

Local Open Scope num_scope.

Lemma leb_trans (x y z : number) :
  (x <=? y) = true -> (y <=? z) = true -> (x <=? z) = true.
Proof.
  intros Hxy Hyz. num_order_hyps. num_order_goal.
  destruct Hxy as (Hx & Hy & Hxy), Hyz as (_ & Hz & Hyz).
  repeat split; try assumption.
  destruct (orderKey x) as [[x1 x2] x3], (orderKey y) as [[y1 y2] y3],
    (orderKey z) as [[z1 z2] z3]. unfold keyLt in *. lia.
Qed.

Lemma ltb_irrefl (x : number) : (x <? x) = false.
Proof.
  num_order_goal. intros (_ & _ & H).
  destruct (orderKey x) as [[x1 x2] x3]. unfold keyLt in H. lia.
Qed.

Lemma leb_refl (x : number) : isNaN x = false -> (x <=? x) = true.
Proof.
  intros Hx. num_order_goal. repeat split; try assumption.
  destruct (orderKey x) as [[x1 x2] x3]. unfold keyLt. lia.
Qed.

Lemma ltb_leb (x y : number) : (x <? y) = true -> (x <=? y) = true.
Proof.
  intros H. num_order_hyps. num_order_goal. destruct H as (Hx & Hy & H).
  repeat split; try assumption.
  destruct (orderKey x) as [[x1 x2] x3], (orderKey y) as [[y1 y2] y3].
  unfold keyLt in *. lia.
Qed.

Lemma ltb_asym (x y : number) : (x <? y) = true -> (y <? x) = false.
Proof.
  intros H. num_order_hyps. num_order_goal. destruct H as (Hx & Hy & H).
  intros (_ & _ & H').
  destruct (orderKey x) as [[x1 x2] x3], (orderKey y) as [[y1 y2] y3].
  unfold keyLt in *. lia.
Qed.

(** Two numbers other than [NaN] are always comparable. *)
Lemma leb_total (x y : number) :
  isNaN x = false -> isNaN y = false -> (y <? x) = false -> (x <=? y) = true.
Proof.
  intros Hx Hy H. num_order_hyps. num_order_goal.
  repeat split; try assumption. tauto.
Qed.

Lemma ltb_leb_trans (x y z : number) :
  (x <? y) = true -> (y <=? z) = true -> (x <? z) = true.
Proof.
  intros Hxy Hyz. num_order_hyps. num_order_goal.
  destruct Hxy as (Hx & Hy & Hxy), Hyz as (_ & Hz & Hyz).
  repeat split; try assumption.
  destruct (orderKey x) as [[x1 x2] x3], (orderKey y) as [[y1 y2] y3],
    (orderKey z) as [[z1 z2] z3]. unfold keyLt in *. lia.
Qed.

Lemma leb_ltb_false (x y : number) : (x <=? y) = true -> (y <? x) = false.
Proof.
  intros H. num_order_hyps. num_order_goal. tauto.
Qed.

Lemma ltb_NaN (x y : number) :
  isNaN x = true \/ isNaN y = true -> (x <? y) = false.
Proof.
  intros H. unfold ltb, SFltb. now rewrite SFcompare_NaN.
Qed.

(** [Math.min] and [Math.max] return one of their arguments, below,
    respectively above, both of them. *)
Lemma min_spec (x y : number) :
  isNaN x = false -> isNaN y = false ->
  (Num.min x y = x \/ Num.min x y = y)
  /\ (Num.min x y <=? x) = true /\ (Num.min x y <=? y) = true.
Proof.
  intros Hx Hy. unfold Num.min. rewrite Hx, Hy. cbn [orb].
  destruct (x <? y) eqn:Hxy.
  { auto using leb_refl, ltb_leb. }
  destruct (y <? x) eqn:Hyx.
  { auto using leb_refl, ltb_leb. }
  destruct (isNegZero x);
    auto 6 using leb_refl, leb_total.
Qed.

Lemma max_spec (x y : number) :
  isNaN x = false -> isNaN y = false ->
  (Num.max x y = x \/ Num.max x y = y)
  /\ (x <=? Num.max x y) = true /\ (y <=? Num.max x y) = true.
Proof.
  intros Hx Hy. unfold Num.max. rewrite Hx, Hy. cbn [orb].
  destruct (x <? y) eqn:Hxy.
  { auto using leb_refl, ltb_leb. }
  destruct (y <? x) eqn:Hyx.
  { auto using leb_refl, ltb_leb. }
  destruct (isNegZero x);
    auto 6 using leb_refl, leb_total.
Qed.

(** Whatever its arguments, [Math.min(x, y)] is never above [y] and
    [Math.max(x, y)] never below it. *)
Lemma min_not_above (x y : number) : (y <? Num.min x y) = false.
Proof.
  destruct (isNaN x) eqn:Hx; [ unfold Num.min; rewrite Hx; apply ltb_NaN; now right | ].
  destruct (isNaN y) eqn:Hy; [ apply ltb_NaN; now left | ].
  apply leb_ltb_false. now apply min_spec.
Qed.

Lemma max_not_below (x y : number) : (Num.max x y <? y) = false.
Proof.
  destruct (isNaN x) eqn:Hx; [ unfold Num.max; rewrite Hx; apply ltb_NaN; now left | ].
  destruct (isNaN y) eqn:Hy; [ apply ltb_NaN; now right | ].
  apply leb_ltb_false. now apply max_spec.
Qed.

End NumberOrderFacts.

(** ** Values kept in range, scaled differences, tick counts *)

Section RangesAndCounts.

Local Open Scope num_scope.

(** X1. [ensureValuesInRange] always returns at least two values,
    whatever the values and the range, even an inverted one or one with a
    [NaN] bound; and over a range with [min <= max] every value it returns
    lies in the range.  So the date-time selector, whatever the sequence
    generator yields for it, always returns at least two ticks, and over a
    domain with [min <= max] all of them lie within the domain. *)
Theorem ensureValuesInRange_within (values : list number) (min max : number) :
  (2 <= len (ensureValuesInRange values min max))%Z
  /\ ((min <=? max) = true ->
      Forall (fun v => (min <=? v) = true /\ (v <=? max) = true)
        (ensureValuesInRange values min max))
  /\ forall (calculate : number -> number -> xnum -> list number)
            (maxTicks : xnum),
      (2 <= len (getRecommendedTickValuesForADateTimeRange calculate maxTicks
                   (min, max)))%Z
      /\ ((min <=? max) = true ->
          Forall (fun v => (min <=? v) = true /\ (v <=? max) = true)
            (getRecommendedTickValuesForADateTimeRange calculate maxTicks
               (min, max))).
Proof.
  assert (Hgen : forall values,
             (2 <= len (ensureValuesInRange values min max))%Z
             /\ ((min <=? max) = true ->
                 Forall (fun v => (min <=? v) = true /\ (v <=? max) = true)
                   (ensureValuesInRange values min max))).
  { clear values. intros values. unfold ensureValuesInRange.
    destruct (len (filter _ values) <? 2)%Z eqn:Hfew.
    - split; [ cbn; lia | ]. intros Hle.
      pose proof Hle as Hk. apply leb_key in Hk. destruct Hk as (Hmin & Hmax & _).
      repeat constructor; auto using leb_refl.
    - apply Z.ltb_ge in Hfew. split; [ exact Hfew | ]. intros _.
      apply Forall_forall. intros v Hv. apply filter_In in Hv.
      destruct Hv as [_ Hv]. apply andb_prop in Hv. exact Hv. }
  split; [ apply Hgen | split; [ apply Hgen | ] ].
  intros calculate maxTicks. unfold getRecommendedTickValuesForADateTimeRange.
  apply Hgen.
Qed.

(** The theorem above over [0, 10] with the values -5, 3, 20 and 7, where
    the two values in range are kept, and over the inverted range
    [10, 0], where the two bounds are returned. *)
Lemma ensureValuesInRange_within_witness :
  (2 <= len (ensureValuesInRange (map ofZ [-5; 3; 20; 7]%Z) (ofZ 0) (ofZ 10)))%Z
  /\ Forall (fun v => (ofZ 0 <=? v) = true /\ (v <=? ofZ 10) = true)
       (ensureValuesInRange (map ofZ [-5; 3; 20; 7]%Z) (ofZ 0) (ofZ 10))
  /\ ensureValuesInRange (map ofZ [-5; 3; 20; 7]%Z) (ofZ 0) (ofZ 10)
     = map ofZ [3; 7]%Z
  /\ (2 <= len (ensureValuesInRange (map ofZ [-5; 3; 20; 7]%Z)
                 (ofZ 10) (ofZ 0)))%Z
  /\ ensureValuesInRange (map ofZ [-5; 3; 20; 7]%Z) (ofZ 10) (ofZ 0)
     = map ofZ [10; 0]%Z.
Proof.
  pose proof (ensureValuesInRange_within (map ofZ [-5; 3; 20; 7]%Z)
                (ofZ 0) (ofZ 10)) as [Htwo [Hin _]].
  pose proof (ensureValuesInRange_within (map ofZ [-5; 3; 20; 7]%Z)
                (ofZ 10) (ofZ 0)) as [Hinverted _].
  split; [ exact Htwo | ].
  split; [ exact (Hin eq_refl) | ].
  split; [ reflexivity | ].
  split; [ exact Hinverted | reflexivity ].
Defined.

(** X2. [diffScaled]: when the difference of the two scaled values is a
    number, the result is 0 exactly for a zero difference, and otherwise it
    is the difference pushed away from zero to at least one pixel: at most
    -1 and at most the difference when that is negative, at least 1 and at
    least the difference when it is positive. *)
Theorem diffScaled_at_least_one_pixel {A : Type} (scale : A -> number)
  (value1 value2 : A) :
  isNaN (scale value1 - scale value2) = false ->
  let value := scale value1 - scale value2 in
  let result := diffScaled scale value1 value2 in
  ((value === ofZ 0) = true /\ result = ofZ 0)
  \/ ((value <? ofZ 0) = true
      /\ (result <=? ofZ (-1)) = true /\ (result <=? value) = true)
  \/ ((ofZ 0 <? value) = true
      /\ (ofZ 1 <=? result) = true /\ (value <=? result) = true).
Proof.
  intros Hnan value result. subst result. unfold diffScaled. fold value.
  destruct (value === ofZ 0) eqn:Hzero; [ now left | right ].
  destruct (value <? ofZ 0) eqn:Hneg.
  - left. split; [ reflexivity | ].
    destruct (min_spec value (ofZ (-1)) Hnan eq_refl) as (_ & H1 & H2). auto.
  - right.
    destruct (max_spec value (ofZ 1) Hnan eq_refl) as (_ & H1 & H2).
    repeat split; try assumption.
    num_order_hyps. num_order_goal. repeat split; try assumption; try reflexivity.
    assert (Hk0 : orderKey (ofZ 0) = (0, 0, 0)%Z) by reflexivity.
    rewrite Hk0 in *.
    destruct (orderKey value) as [[v1 v2] v3]. unfold keyLt in *.
    assert (Hne : (v1, v2, v3) <> (0, 0, 0)%Z) by tauto.
    assert (Hnl : ~ (v1 < 0 \/ v1 = 0 /\ (v2 < 0 \/ v2 = 0 /\ v3 < 0))%Z)
      by tauto.
    assert (~ (v1 = 0 /\ v2 = 0 /\ v3 = 0)%Z)
      by (intros (-> & -> & ->); now apply Hne).
    lia.
Qed.

(** The theorem above on the identity scale at 3 and 5/2: a difference of
    half a pixel counts as one. *)
Lemma diffScaled_at_least_one_pixel_witness :
  diffScaled (fun v : number => v) (ofZ 3) (lit 5 2) = ofZ 1.
Proof.
  destruct (diffScaled_at_least_one_pixel (fun v : number => v) (ofZ 3)
              (lit 5 2) eq_refl) as [[H _] | [[H _] | _]];
    [ vm_compute in H; discriminate | vm_compute in H; discriminate
    | reflexivity ].
Defined.

(** X3. Over a domain whose two bounds are numbers and differ,
    [getBestNumberOfTicks] never returns more than [maxTickCount]. *)
Theorem getBestNumberOfTicks_at_most_max (min max maxTickCount : number)
  (valuesMetadata : list (option DataViewMetadataColumn)) (isDateTime : bool) :
  isNaN min = false -> isNaN max = false -> (min === max) = false ->
  (maxTickCount <?
   getBestNumberOfTicks min max valuesMetadata maxTickCount isDateTime) = false.
Proof.
  intros Hmin Hmax Hne. unfold getBestNumberOfTicks.
  rewrite Hmin, Hmax, Hne. cbn [orb].
  destruct (_ || _)%bool; [ apply ltb_irrefl | ].
  destruct (hasNonIntegerData valuesMetadata); [ apply ltb_irrefl | ].
  apply min_not_above.
Qed.

(** The theorem above at the domain [2, 5] with at most 3 ticks: 3 of the 4
    integers get a tick. *)
Lemma getBestNumberOfTicks_at_most_max_witness :
  (ofZ 3 <? getBestNumberOfTicks (ofZ 2) (ofZ 5) [] (ofZ 3) false) = false
  /\ getBestNumberOfTicks (ofZ 2) (ofZ 5) [] (ofZ 3) false = ofZ 3.
Proof.
  split; [ | reflexivity ].
  apply (getBestNumberOfTicks_at_most_max (ofZ 2) (ofZ 5) (ofZ 3) [] false);
    reflexivity.
Defined.

End RangesAndCounts.

(** ** Domains: forced and customized bounds, log scales *)

Section Domains.

Local Open Scope num_scope.

Lemma eqb_refl (x : number) : isNaN x = false -> (x === x) = true.
Proof. intros Hx. apply eqb_key. auto. Qed.

(** X4. [isLogScalePossible] accepts a domain only if both bounds are numbers,
    neither is zero and zero does not lie between them, in either order;
    and never for a date-time axis. *)
Theorem isLogScalePossible_excludes_zero (d : list JsValue)
  (axisType : option AxisValueType) :
  isLogScalePossible (Some d) axisType = true ->
  let a := toNumber (item d 0) in
  let b := toNumber (item d 1) in
  isDateTime axisType = false
  /\ isNaN a = false /\ isNaN b = false
  /\ (a === ofZ 0) = false /\ (b === ofZ 0) = false
  /\ ((a <=? ofZ 0) && (ofZ 0 <=? b)) = false
  /\ ((b <=? ofZ 0) && (ofZ 0 <=? a)) = false.
Proof.
  intros H a b. unfold isLogScalePossible, jsGt, jsLt in H.
  cbn [toNumber] in H. fold a b in H.
  destruct (isDateTime axisType); [ discriminate | ].
  split; [ reflexivity | ].
  assert (Hk0 : orderKey (ofZ 0) = (0, 0, 0)%Z) by reflexivity.
  apply orb_prop in H. destruct H as [H | H]; apply andb_prop in H;
    destruct H as [Ha Hb]; num_order_hyps;
    destruct Ha as (Ha0 & Ha1 & Ha), Hb as (Hb0 & Hb1 & Hb);
    rewrite Hk0 in *;
    destruct (orderKey a) as [[a1 a2] a3] eqn:Hka;
    destruct (orderKey b) as [[b1 b2] b3] eqn:Hkb;
    unfold keyLt in *.
  all: repeat split; try assumption.
  all: try (num_order_goal; rewrite ?Hka, ?Hkb, ?Hk0;
            intros (_ & _ & Heq); injection Heq as -> -> ->; lia).
  all: apply andb_false_iff.
  all: destruct (_ <=? ofZ 0) eqn:Hl; [ right | now left ].
  all: num_order_hyps; num_order_goal; rewrite ?Hka, ?Hkb, ?Hk0 in *;
    unfold keyLt in *; intros (_ & _ & Hr); lia.
Qed.

(** The theorem above at the domains [1, 100] and [-7, -2]. *)
Lemma isLogScalePossible_excludes_zero_witness :
  ((ofZ 1 <=? ofZ 0) && (ofZ 0 <=? ofZ 100)) = false
  /\ ((ofZ (-7) <=? ofZ 0) && (ofZ 0 <=? ofZ (-2))) = false.
Proof.
  split.
  - apply (isLogScalePossible_excludes_zero
             [VNumber (ofZ 1); VNumber (ofZ 100)] None eq_refl).
  - apply (isLogScalePossible_excludes_zero
             [VNumber (ofZ (-7)); VNumber (ofZ (-2))] None eq_refl).
Defined.

(** X5. A value domain made to include zero has 0 between its bounds when the
    extrema of the data are numbers, and never allows a log scale,
    whatever the data and whatever D3's [min] and [max] return. *)
Theorem createValueDomain_with_zero_is_never_log (CartesianSeries : Type)
  (d3min d3max : list CartesianSeries -> JsValue)
  (data : list CartesianSeries) (axisType : option AxisValueType) :
  isLogScalePossible (createValueDomain CartesianSeries d3min d3max data true)
    axisType = false
  /\ (data <> [] ->
      isNaN (toNumber (d3min data)) = false ->
      isNaN (toNumber (d3max data)) = false ->
      exists lo hi : number,
        createValueDomain CartesianSeries d3min d3max data true
        = Some [VNumber lo; VNumber hi]
        /\ (lo <=? ofZ 0) = true /\ (ofZ 0 <=? hi) = true
        /\ (lo <=? toNumber (d3min data)) = true
        /\ (toNumber (d3max data) <=? hi) = true).
Proof.
  split.
  - destruct data as [ | s data]; [ reflexivity | ].
    unfold createValueDomain, isLogScalePossible, jsGt, jsLt, item, gtb.
    cbn [nth toNumber].
    destruct (isDateTime axisType); [ reflexivity | ].
    rewrite min_not_above, max_not_below.
    now rewrite andb_false_r.
  - intros Hdata Hmin Hmax.
    destruct data as [ | s data]; [ contradiction | ].
    unfold createValueDomain.
    destruct (min_spec (toNumber (d3min (s :: data))) (ofZ 0) Hmin eq_refl)
      as (_ & H1 & H2).
    destruct (max_spec (toNumber (d3max (s :: data))) (ofZ 0) Hmax eq_refl)
      as (_ & H3 & H4).
    eauto 10.
Qed.

(** X6. [combineDomain] over a computed domain [d0 <= d1] and two forced
    entries, each absent ([null], [undefined]) or a number: the result is
    again a pair of numbers with [lo <= hi], each bound being the computed
    one or the forced one; the forced bounds are both honoured unless they
    would invert the domain, and then the computed domain is returned. *)
Theorem combineDomain_never_inverted (f0 f1 : JsValue) (d0 d1 : number) :
  (d0 <=? d1) = true ->
  isNaN (toNumber (if isNullish f0 then VNumber d0 else f0)) = false ->
  isNaN (toNumber (if isNullish f1 then VNumber d1 else f1)) = false ->
  let lo' := toNumber (if isNullish f0 then VNumber d0 else f0) in
  let hi' := toNumber (if isNullish f1 then VNumber d1 else f1) in
  exists lo hi : number,
    combineDomain (Some [f0; f1]) (Some [VNumber d0; VNumber d1])
    = Some [VNumber lo; VNumber hi]
    /\ (lo <=? hi) = true
    /\ ((lo = lo' /\ hi = hi' /\ (hi' <? lo') = false)
        \/ (lo = d0 /\ hi = d1 /\ (hi' <? lo') = true)).
Proof.
  intros Hd Hf0 Hf1 lo' hi'. subst lo' hi'.
  unfold combineDomain, jsGt, gtb.
  destruct f0 as [ | | n0], f1 as [ | | n1];
    cbn [isNullish negb item nth assign firstn skipn repeat app List.length
         Nat.sub Nat.eqb toNumber] in *.
  all: match goal with
       | |- context [if SFltb ?y ?x then _ else _] =>
           change (SFltb y x) with (y <? x); destruct (y <? x) eqn:Hinv
       end.
  all: do 2 eexists; (split; [ reflexivity | ]).
  all: first
    [ split; [ exact Hd | right; repeat split; reflexivity ]
    | split; [ apply leb_total; assumption | left; repeat split; reflexivity ] ].
Qed.

(** The theorem above with the minimum forced to 2 over the computed
    domain [0, 10], and with the minimum forced to 20, which is refused. *)
Lemma combineDomain_never_inverted_witness :
  combineDomain (Some [VNumber (ofZ 2); VNull])
    (Some [VNumber (ofZ 0); VNumber (ofZ 10)])
  = Some [VNumber (ofZ 2); VNumber (ofZ 10)]
  /\ combineDomain (Some [VNumber (ofZ 20); VNull])
       (Some [VNumber (ofZ 0); VNumber (ofZ 10)])
     = Some [VNumber (ofZ 0); VNumber (ofZ 10)].
Proof.
  split.
  - destruct (combineDomain_never_inverted (VNumber (ofZ 2)) VNull (ofZ 0)
                (ofZ 10) eq_refl eq_refl eq_refl)
      as (lo & hi & Heq & _ & [(-> & -> & _) | (_ & _ & H)]);
      [ exact Heq | vm_compute in H; discriminate ].
  - destruct (combineDomain_never_inverted (VNumber (ofZ 20)) VNull (ofZ 0)
                (ofZ 10) eq_refl eq_refl eq_refl)
      as (lo & hi & Heq & _ & [(_ & _ & H) | (-> & -> & _)]);
      [ vm_compute in H; discriminate | exact Heq ].
Defined.

(** X7. Clamping follows forcing: over a computed domain of two numbers,
    [scaleShouldClamp(combineDomain(forced, domain), domain)] is true
    exactly when [forced] has two entries, the bounds they force are not
    refused (they do not invert the domain), and one of the entries is a
    number different from the computed bound at its place.  So there is
    no clamping when nothing is forced, when [forced] does not have two
    entries, or when the forced bounds are refused. *)
Theorem scaleShouldClamp_only_when_forced (forced : option (list JsValue))
  (d0 d1 : number) :
  isNaN d0 = false -> isNaN d1 = false ->
  let domain := Some [VNumber d0; VNumber d1] in
  let refused (f0 f1 : JsValue) :=
    jsGt (if isNullish f0 then VNumber d0 else f0)
      (if isNullish f1 then VNumber d1 else f1) in
  (scaleShouldClamp (combineDomain forced domain) domain = true
   <-> exists f0 f1 : JsValue,
         forced = Some [f0; f1]
         /\ refused f0 f1 = false
         /\ ((exists n, f0 = VNumber n /\ (n === d0) = false)
             \/ (exists n, f1 = VNumber n /\ (n === d1) = false)))
  /\ scaleShouldClamp (combineDomain None domain) domain = false
  /\ (forall f : list JsValue,
         List.length f <> 2%nat ->
         scaleShouldClamp (combineDomain (Some f) domain) domain = false)
  /\ (forall f0 f1 : JsValue,
         refused f0 f1 = true ->
         combineDomain (Some [f0; f1]) domain = domain
         /\ scaleShouldClamp (combineDomain (Some [f0; f1]) domain) domain
            = false).
Proof.
  intros Hd0 Hd1 domain refused. subst domain refused.
  assert (Hsame : scaleShouldClamp (Some [VNumber d0; VNumber d1])
                    (Some [VNumber d0; VNumber d1]) = false).
  { cbn. now rewrite !eqb_refl by assumption. }
  assert (Hshort : forall f : list JsValue,
             List.length f <> 2%nat ->
             scaleShouldClamp
               (combineDomain (Some f) (Some [VNumber d0; VNumber d1]))
               (Some [VNumber d0; VNumber d1]) = false).
  { intros f Hf. unfold combineDomain.
    replace (List.length f =? 2)%nat with false
      by (symmetry; now apply Nat.eqb_neq).
    exact Hsame. }
  assert (Hrefused : forall f0 f1 : JsValue,
             jsGt (if isNullish f0 then VNumber d0 else f0)
               (if isNullish f1 then VNumber d1 else f1) = true ->
             combineDomain (Some [f0; f1]) (Some [VNumber d0; VNumber d1])
             = Some [VNumber d0; VNumber d1]).
  { intros f0 f1 Hr. unfold combineDomain.
    destruct f0 as [ | | n0], f1 as [ | | n1];
      cbn [isNullish negb item nth assign firstn skipn repeat app List.length
           Nat.sub Nat.eqb] in *;
      now rewrite Hr. }
  split; [ | split; [ exact Hsame | split; [ exact Hshort | ] ] ].
  2:{ intros f0 f1 Hr. rewrite (Hrefused f0 f1 Hr). now split. }
  split.
  - destruct forced as [f | ];
      [ | change (combineDomain None (Some [VNumber d0; VNumber d1]))
            with (Some [VNumber d0; VNumber d1]);
          rewrite Hsame; discriminate ].
    destruct f as [ | f0 [ | f1 [ | f2 f]]];
      try (rewrite Hshort by discriminate; discriminate).
    destruct (jsGt (if isNullish f0 then VNumber d0 else f0)
                (if isNullish f1 then VNumber d1 else f1)) eqn:Hr.
    { rewrite (Hrefused f0 f1 Hr), Hsame. discriminate. }
    unfold combineDomain.
    destruct f0 as [ | | n0], f1 as [ | | n1];
      cbn [isNullish negb item nth assign firstn skipn repeat app List.length
           Nat.sub Nat.eqb] in *;
      rewrite Hr;
      cbn [scaleShouldClamp List.length Nat.ltb Nat.leb orb item nth
           strictNeq];
      rewrite ?eqb_refl by assumption; cbn [negb orb];
      intros H; try discriminate;
      do 2 eexists; (split; [ reflexivity | ]); (split; [ exact Hr | ]).
    + right. exists n1. split; [ reflexivity | ].
      now destruct (n1 === d1).
    + right. exists n1. split; [ reflexivity | ].
      now destruct (n1 === d1).
    + left. exists n0. split; [ reflexivity | ].
      now destruct (n0 === d0).
    + left. exists n0. split; [ reflexivity | ].
      now destruct (n0 === d0).
    + apply orb_prop in H.
      destruct H as [H | H]; [ left; exists n0 | right; exists n1 ];
        (split; [ reflexivity | ]).
      * now destruct (n0 === d0).
      * now destruct (n1 === d1).
  - intros (f0 & f1 & -> & Hr & Hforced).
    unfold combineDomain.
    destruct f0 as [ | | n0], f1 as [ | | n1];
      cbn [isNullish negb item nth assign firstn skipn repeat app List.length
           Nat.sub Nat.eqb] in *;
      rewrite Hr;
      cbn [scaleShouldClamp List.length Nat.ltb Nat.leb orb item nth
           strictNeq];
      destruct Hforced as [(n & E & Hn) | (n & E & Hn)];
      try discriminate; injection E as <-; rewrite Hn;
      cbn [negb orb]; try reflexivity; apply orb_true_r.
Qed.

(** X8. [applyCustomizedDomain] changes nothing when nothing is customized:
    without a customized domain, with one that does not have two entries,
    or with one whose two entries are [null] or [undefined], the forced
    domain is returned as it is.  A customized pair of two numbers replaces
    the forced domain whatever that is, unless the pair is inverted, and
    then the forced domain is returned. *)
Theorem applyCustomizedDomain_nothing_or_all
  (customizedDomain forcedDomain : option (list JsValue)) :
  (match customizedDomain with
   | None => True
   | Some c =>
       List.length c <> 2%nat
       \/ (isNullish (item c 0) = true /\ isNullish (item c 1) = true)
   end ->
   applyCustomizedDomain customizedDomain forcedDomain = forcedDomain)
  /\ forall a b : number,
      applyCustomizedDomain (Some [VNumber a; VNumber b]) forcedDomain
      = if b <? a then forcedDomain else Some [VNumber a; VNumber b].
Proof.
  split.
  - intros Hnothing.
    assert (Hforced :
              applyCustomizedDomain None forcedDomain = forcedDomain).
    { unfold applyCustomizedDomain.
      destruct forcedDomain as [[ | x [ | y [ | z f]]] | ]; try reflexivity.
      cbn [List.length Nat.eqb item nth].
      destruct x, y; cbn [isNullish andb negb]; try reflexivity.
      now destruct (jsGt _ _). }
    destruct customizedDomain as [c | ]; [ | exact Hforced ].
    rewrite <- Hforced at 2. unfold applyCustomizedDomain.
    destruct (List.length c =? 2)%nat eqn:Hlen; [ | reflexivity ].
    apply Nat.eqb_eq in Hlen.
    destruct Hnothing as [Hc | [Hc0 Hc1]]; [ contradiction | ].
    now rewrite Hc0, Hc1.
  - intros a b. unfold applyCustomizedDomain, jsGt, gtb.
    cbn [List.length Nat.eqb item nth isNullish negb toNumber].
    destruct forcedDomain as [[ | x [ | y [ | z f]]] | ];
      cbn [List.length Nat.eqb item nth isNullish negb andb toNumber assign
           firstn skipn repeat app Nat.sub];
      reflexivity.
Qed.

(** The theorem above over the computed domain [0, 10]: the scale is
    clamped with the minimum forced to 2, and not clamped with the
    minimum forced to 20, which is refused. *)
Lemma scaleShouldClamp_only_when_forced_witness :
  scaleShouldClamp
    (combineDomain (Some [VNumber (ofZ 2); VNull])
       (Some [VNumber (ofZ 0); VNumber (ofZ 10)]))
    (Some [VNumber (ofZ 0); VNumber (ofZ 10)]) = true
  /\ scaleShouldClamp
       (combineDomain (Some [VNumber (ofZ 20); VNull])
          (Some [VNumber (ofZ 0); VNumber (ofZ 10)]))
       (Some [VNumber (ofZ 0); VNumber (ofZ 10)]) = false.
Proof.
  split.
  - apply (proj1 (scaleShouldClamp_only_when_forced
                    (Some [VNumber (ofZ 2); VNull]) (ofZ 0) (ofZ 10)
                    eq_refl eq_refl)).
    exists (VNumber (ofZ 2)), VNull.
    split; [ reflexivity | split; [ reflexivity | ] ].
    left. exists (ofZ 2). split; reflexivity.
  - apply (proj2 (proj2 (proj2 (scaleShouldClamp_only_when_forced None
                                  (ofZ 0) (ofZ 10) eq_refl eq_refl)))
             (VNumber (ofZ 20)) VNull).
    reflexivity.
Defined.

End Domains.

(** ** Lookups in an ordinal scale *)

Section OrdinalScaleLookups.

Local Open Scope num_scope.

Lemma invertLoop_spec (leftEdges : list number) (width x : number) :
  forall fuel j,
    (j <= List.length leftEdges - 1)%nat ->
    (List.length leftEdges - 1 - j <= fuel)%nat ->
    (forall k, (k < j)%nat -> (x >? nth k leftEdges NaN + width) = true) ->
    let r := invertLoop fuel leftEdges width x j in
    (r <= List.length leftEdges - 1)%nat
    /\ (forall k, (k < r)%nat -> (x >? nth k leftEdges NaN + width) = true)
    /\ (r = (List.length leftEdges - 1)%nat
        \/ (x >? nth r leftEdges NaN + width) = false).
Proof.
  induction fuel as [ | fuel IH]; intros j Hj Hfuel Hbefore; cbn [invertLoop].
  - repeat split; [ lia | assumption | left; lia ].
  - destruct (x >? nth j leftEdges NaN + width) eqn:Hgt; cbn [andb].
    + destruct (j <? List.length leftEdges - 1)%nat eqn:Hlast.
      * apply Nat.ltb_lt in Hlast. apply IH; try lia.
        intros k Hk. destruct (Nat.eq_dec k j) as [-> | Hne];
          [ assumption | apply Hbefore; lia ].
      * apply Nat.ltb_ge in Hlast.
        repeat split; [ lia | assumption | left; lia ].
    + repeat split; [ lia | assumption | now right ].
Qed.

(** X9. [invertOrdinalScale] finds the first band whose right edge is not left
    of [x], or else the last band: its index stays within the bands, [x]
    is right of every earlier band, and unless the index is the last one
    [x] is not right of the band found.  When [domain()] has an entry for
    every band the value returned is the entry of that band, never
    [undefined]. *)
Theorem invertOrdinalScale_first_band {A : Type} (scale : OrdinalScale A)
  (x : number) :
  let j := invertOrdinalScaleIndex scale x in
  let rightEdge k := nth k (range scale) NaN + rangeBand scale in
  (j <= List.length (range scale) - 1)%nat
  /\ (forall k, (k < j)%nat -> (x >? rightEdge k) = true)
  /\ (j = (List.length (range scale) - 1)%nat \/ (x >? rightEdge j) = false)
  /\ (range scale <> [] ->
      List.length (domain scale) = List.length (range scale) ->
      exists v : A,
        invertOrdinalScale scale x = Some v
        /\ nth_error (domain scale) j = Some v).
Proof.
  intros j rightEdge. subst rightEdge.
  destruct (invertLoop_spec (range scale) (rangeBand scale) x
              (List.length (range scale)) 0
              ltac:(lia) ltac:(lia) ltac:(intros; lia)) as (Hj & Hbefore & Hat).
  fold (invertOrdinalScaleIndex scale x) in Hj, Hbefore, Hat. fold j in Hj, Hbefore, Hat.
  repeat split; try assumption.
  intros Hne Hlen. unfold invertOrdinalScale. fold j.
  destruct (nth_error (domain scale) j) as [v | ] eqn:Hv; [ now exists v | ].
  apply nth_error_None in Hv.
  destruct (range scale) as [ | e edges]; [ contradiction | ].
  cbn [List.length] in *. lia.
Qed.

Lemma closestLoop_spec (x : number) (range : list number) :
  (forall k, (k < List.length range)%nat ->
             isNaN (abs (x - nth k range NaN)) = false) ->
  forall rest pre distance index,
    range = pre ++ rest ->
    (index < List.length pre)%nat ->
    distance = abs (x - nth index range NaN) ->
    (forall k, (k < List.length pre)%nat ->
               (distance <=? abs (x - nth k range NaN)) = true) ->
    (forall k, (k < index)%nat ->
               (distance <? abs (x - nth k range NaN)) = true) ->
    let r := closestLoop x rest (List.length pre) distance index in
    (r < List.length range)%nat
    /\ (forall k, (k < List.length range)%nat ->
                  (abs (x - nth r range NaN) <=? abs (x - nth k range NaN))
                  = true)
    /\ (forall k, (k < r)%nat ->
                  (abs (x - nth r range NaN) <? abs (x - nth k range NaN))
                  = true).
Proof.
  intros Hnum. induction rest as [ | e rest IH];
    intros pre distance index Hrange Hindex Hdist Hmin Hfirst;
    cbn [closestLoop].
  - rewrite app_nil_r in Hrange. subst pre distance.
    repeat split; try assumption.
  - assert (He : nth (List.length pre) range NaN = e)
      by (rewrite Hrange; apply nth_middle).
    assert (Hlen : (List.length pre < List.length range)%nat)
      by (rewrite Hrange, length_app; cbn [List.length]; lia).
    assert (Hrange' : range = (pre ++ [e]) ++ rest)
      by (now rewrite <- app_assoc).
    specialize (IH (pre ++ [e])). rewrite length_app in IH.
    cbn [List.length] in IH.
    replace (List.length pre + 1)%nat with (S (List.length pre)) in IH by lia.
    rewrite <- He.
    destruct (distance >? abs (x - nth (List.length pre) range NaN)) eqn:Hgt.
    + (* a closer edge: it becomes the candidate *)
      apply IH; try assumption; try lia; try reflexivity.
      * intros k Hk. destruct (Nat.eq_dec k (List.length pre)) as [-> | Hne].
        -- apply leb_refl. now apply Hnum.
        -- apply ltb_leb. eapply ltb_leb_trans; [ exact Hgt | ].
           apply Hmin. lia.
      * intros k Hk. eapply ltb_leb_trans; [ exact Hgt | ].
        apply Hmin. lia.
    + (* not closer: the candidate stays *)
      apply IH; try assumption; try lia.
      intros k Hk. destruct (Nat.eq_dec k (List.length pre)) as [-> | Hne].
      * apply leb_total; try assumption; [ | now apply Hnum ].
        subst distance. apply Hnum. lia.
      * apply Hmin. lia.
Qed.

(** X10. [getOrdinalScaleClosestDataPointIndex] returns the index of the band
    edge closest to [x], and the first such index: when the scale has a
    band and all distances are numbers, the index lies within the bands,
    no edge is closer to [x] than the edge at that index, and every
    earlier edge is strictly farther. *)
Theorem closestDataPointIndex_is_nearest {A : Type} (scale : OrdinalScale A)
  (x : number) :
  range scale <> [] ->
  (forall k, (k < List.length (range scale))%nat ->
             isNaN (abs (x - nth k (range scale) NaN)) = false) ->
  let index := getOrdinalScaleClosestDataPointIndex scale x in
  let distance k := abs (x - nth k (range scale) NaN) in
  (index < List.length (range scale))%nat
  /\ (forall k, (k < List.length (range scale))%nat ->
                (distance index <=? distance k) = true)
  /\ (forall k, (k < index)%nat -> (distance index <? distance k) = true).
Proof.
  intros Hne Hnum index distance. subst index distance.
  unfold getOrdinalScaleClosestDataPointIndex.
  destruct (range scale) as [ | e edges] eqn:Hrange; [ contradiction | ].
  cbn [tl].
  apply (closestLoop_spec x (e :: edges) Hnum edges [e]); try reflexivity.
  - cbn; lia.
  - intros k Hk. cbn [List.length] in Hk.
    replace k with 0%nat by lia. apply leb_refl. apply (Hnum 0%nat).
    cbn; lia.
  - intros k Hk. lia.
Qed.

(** The theorem above on the edges 0, 10, 20, 30 at [x = 17]: the edge at
    index 2 is the nearest. *)
Lemma closestDataPointIndex_is_nearest_witness :
  (getOrdinalScaleClosestDataPointIndex
     (mkOrdinalScale nat (map ofZ [0; 10; 20; 30]%Z) (ofZ 8) [0; 1; 2; 3]%nat)
     (ofZ 17) < 4)%nat
  /\ getOrdinalScaleClosestDataPointIndex
       (mkOrdinalScale nat (map ofZ [0; 10; 20; 30]%Z) (ofZ 8) [0; 1; 2; 3]%nat)
       (ofZ 17) = 2%nat.
Proof.
  split; [ | reflexivity ].
  apply (closestDataPointIndex_is_nearest
           (mkOrdinalScale nat (map ofZ [0; 10; 20; 30]%Z) (ofZ 8)
              [0; 1; 2; 3]%nat) (ofZ 17)).
  - discriminate.
  - intros k Hk. cbn [range map List.length] in *.
    do 4 (destruct k as [ | k]; [ reflexivity | ]). lia.
Defined.

End OrdinalScaleLookups.

(** ** Label fit tests *)

Section LabelFit.

Import TextMeasurementService LabelLayoutStrategy.
Local Open Scope num_scope.

(** X11. Labels that fit need no rotation: whenever [willLabelsFit] holds, no
    label measures wider than the width budget of a label, and
    [willLabelsWordBreak] holds as well, whatever the break test says.
    Without labels both tests fail. *)
Theorem willLabelsFit_implies_willLabelsWordBreak
  (textMeasurer : TextProperties -> number) (hasBreakers : string -> bool)
  (axisProperties : IAxisProperties) (availableWidth : number)
  (properties : TextProperties) :
  (willLabelsFit textMeasurer axisProperties availableWidth properties = true ->
   willLabelsWordBreak textMeasurer hasBreakers axisProperties availableWidth
     properties = true
   /\ Forall (fun d => (textMeasurer (withText properties d)
                        >? labelMaxWidth axisProperties availableWidth) = false)
        (values axisProperties))
  /\ (values axisProperties = [] ->
      willLabelsFit textMeasurer axisProperties availableWidth properties
      = false
      /\ willLabelsWordBreak textMeasurer hasBreakers axisProperties
           availableWidth properties = false).
Proof.
  unfold willLabelsFit, willLabelsWordBreak. split.
  - destruct (len (values axisProperties) =? 0)%Z; [ discriminate | ].
    intros Hfit. apply negb_true_iff in Hfit.
    assert (Hall : Forall
                     (fun d => (textMeasurer (withText properties d)
                                >? labelMaxWidth axisProperties availableWidth)
                               = false) (values axisProperties)).
    { apply Forall_forall. intros d Hd.
      destruct (_ >? _) eqn:Hwide; [ | reflexivity ].
      assert (Hex : existsb
                      (fun d => textMeasurer (withText properties d)
                                >? labelMaxWidth axisProperties availableWidth)
                      (values axisProperties) = true)
        by (apply existsb_exists; eauto).
      congruence. }
    split; [ | exact Hall ].
    apply negb_true_iff. apply Bool.not_true_iff_false. intros Hex.
    apply existsb_exists in Hex. destruct Hex as (d & Hd & Hwide).
    rewrite Forall_forall in Hall. apply andb_prop in Hwide.
    destruct Hwide as [_ Hwide]. rewrite (Hall d Hd) in Hwide. discriminate.
  - intros ->. split; reflexivity.
Qed.

End LabelFit.

(** ** More on truncation *)

Section TruncationShape.

Import TextMeasurementService.
Local Open Scope Z_scope.

(** X12. Whatever the measurer and the width budget, [getTailoredTextOrDefault]
    returns the text itself when it is empty or measures strictly less
    than [maxWidth], and otherwise some first characters of the text,
    possibly none or all, followed by the ellipsis marker: it never
    invents or reorders characters. *)
Theorem getTailoredTextOrDefault_prefix_and_dots
  (measureText : string -> string -> Q) (properties : TextProperties)
  (maxWidth : xnum) :
  let result := getTailoredTextOrDefault measureText properties maxWidth in
  (strlen (text properties) = 0
   \/ (XFin (measureSvgTextWidth measureText properties) <? maxWidth)%xnum
      = true ->
   result = text properties)
  /\ (strlen (text properties) <> 0 ->
      (XFin (measureSvgTextWidth measureText properties) <? maxWidth)%xnum
      = false ->
      exists k : nat,
        result = (substring 0 k (text properties) ++ dotsString)%string).
Proof.
  intros result. subst result. unfold getTailoredTextOrDefault. split.
  - intros [Hempty | Hfits].
    + now rewrite Hempty.
    + destruct (strlen (text properties) =? 0); [ reflexivity | ].
      now rewrite Hfits.
  - intros Hne Hwide.
    replace (strlen (text properties) =? 0) with false
      by (symmetry; now apply Z.eqb_neq).
    rewrite Hwide.
    match goal with
    | |- context [substr 3 ?n _] =>
        set (cut := n); exists (Z.to_nat cut); unfold substr at 1
    end.
    destruct (cut <=? 0)%Z eqn:Hshort.
    + apply Z.leb_le in Hshort.
      replace (Z.to_nat _) with 0%nat by lia.
      now destruct (text properties).
    + f_equal.
Qed.

End TruncationShape.

Section TruncationTight.

Import TextMeasurementService.
Local Open Scope Z_scope.

Variable measureText : string -> string -> Q.
Variable properties : TextProperties.

Let widthOf (s : string) : Q :=
  measureSvgTextWidth measureText (withText properties s).

Hypothesis monotonic :
  forall s t : string,
    (String.length s <= String.length t)%nat -> (widthOf s <= widthOf t)%Q.

Variable fullText : string.

(** A width budget that is a finite number. *)
Variable maxWidth : Q.

Let prefixOf (j : Z) : string := substr 0 j fullText.

Lemma prefixOf_monotonic (j k : Z) :
  j <= k -> (widthOf (prefixOf j) <= widthOf (prefixOf k))%Q.
Proof.
  intros Hjk. apply monotonic. unfold prefixOf, substr.
  destruct (j <=? 0) eqn:Hj; [ cbn; lia | ].
  destruct (k <=? 0) eqn:Hk; [ lia | ].
  rewrite !substring_length. lia.
Qed.

(** What the search leaves behind on both sides of its last midpoint: if
    that prefix is too wide every shorter one has room to spare, and if it
    has room to spare every longer one is too wide. *)
Let bracketed (i : Z) : Prop :=
  1 <= i <= strlen fullText
  /\ ((maxWidth < widthOf (prefixOf i))%Q ->
      forall j, 1 <= j < i -> (widthOf (prefixOf j) < maxWidth)%Q)
  /\ ((widthOf (prefixOf i) < maxWidth)%Q ->
      forall j, i < j <= strlen fullText ->
                (maxWidth < widthOf (prefixOf j))%Q).

Lemma searchLoop_bracketed :
  forall fuel min max i,
    1 <= min -> min <= max + 1 -> max <= strlen fullText ->
    (forall j, 1 <= j < min -> (widthOf (prefixOf j) < maxWidth)%Q) ->
    (forall j, max < j <= strlen fullText ->
               (maxWidth < widthOf (prefixOf j))%Q) ->
    (max < min -> bracketed i) ->
    max + 1 - min <= Z.of_nat fuel ->
    bracketed (searchLoop measureText fuel properties fullText
                 (XFin maxWidth) min max i).
Proof.
  induction fuel as [ | fuel IH];
    intros min max i Hmin Hle Hmax Hbelow Habove Hexit Hfuel;
    cbn [searchLoop].
  - apply Hexit. cbn in Hfuel. lia.
  - destruct (min <=? max) eqn:Hmm; [ | apply Hexit; lia ].
    apply Z.leb_le in Hmm.
    assert (Hmid : min <= Z.quot (min + max) 2 <= max).
    { rewrite Z.quot_div_nonneg by lia.
      pose proof (Z.div_mod (min + max) 2 ltac:(lia)).
      pose proof (Z.mod_pos_bound (min + max) 2 ltac:(lia)). lia. }
    set (mid := Z.quot (min + max) 2) in *.
    fold (prefixOf mid). fold (widthOf (prefixOf mid)). unfold XNum.gtb.
    destruct (XFin (widthOf (prefixOf mid)) <? XFin maxWidth)%xnum eqn:Hcmp.
    + apply xltb_fin in Hcmp.
      apply IH; try lia; try assumption.
      * intros j Hj. eapply Qle_lt_trans; [ | exact Hcmp ].
        apply prefixOf_monotonic. lia.
      * intros Hstop. assert (mid = max) as Heq by lia.
        repeat split; try lia.
        -- intros Hwide. exfalso. apply (Qlt_irrefl maxWidth).
           eapply Qlt_trans; eassumption.
        -- intros _ j Hj. apply Habove. lia.
    + apply xltb_fin_false in Hcmp.
      destruct (XFin maxWidth <? XFin (widthOf (prefixOf mid)))%xnum
        eqn:Hcmp'.
      * apply xltb_fin in Hcmp'.
        apply IH; try lia; try assumption.
        -- intros j Hj. eapply Qlt_le_trans; [ exact Hcmp' | ].
           apply prefixOf_monotonic. lia.
        -- intros Hstop. assert (mid = min) as Heq by lia.
           repeat split; try lia.
           ++ intros _ j Hj. apply Hbelow. lia.
           ++ intros Hroom. exfalso. apply (Qlt_irrefl maxWidth).
              eapply Qlt_trans; eassumption.
      * apply xltb_fin_false in Hcmp'. repeat split; try lia.
        -- intros Hwide. now apply Qlt_not_le in Hwide.
        -- intros Hroom. now apply Qlt_not_le in Hroom.
Qed.

End TruncationTight.

Section TruncationIsTight.

Import TextMeasurementService.
Local Open Scope Z_scope.

(** The tightness of the cut for a width budget that is a finite
    number. *)
Lemma cut_is_tight_finite
  (measureText : string -> string -> Q) (properties : TextProperties)
  (maxWidth : Q) :
  (forall s t : string,
      (String.length s <= String.length t)%nat ->
      (measureSvgTextWidth measureText (withText properties s)
       <= measureSvgTextWidth measureText (withText properties t))%Q) ->
  strlen (text properties) <> 0 ->
  (maxWidth <= measureSvgTextWidth measureText properties)%Q ->
  forall s : string,
    strlen (getTailoredTextOrDefault measureText properties (XFin maxWidth))
    < strlen s <= strlen (text properties) + 3 ->
    (maxWidth <= measureSvgTextWidth measureText (withText properties s))%Q.
Proof.
  intros Hmono Hne Hwide s.
  unfold getTailoredTextOrDefault.
  replace (strlen (text properties) =? 0) with false
    by (symmetry; now apply Z.eqb_neq).
  replace (XFin (measureSvgTextWidth measureText properties)
           <? XFin maxWidth)%xnum with false
    by (symmetry; now apply xltb_fin_false).
  set (full := (dotsString ++ text properties)%string).
  assert (Hfull : strlen full = 3 + strlen (text properties))
    by (unfold full, strlen; rewrite string_length_append;
        change (String.length dotsString) with 3%nat; lia).
  assert (Hpos : 0 < strlen (text properties))
    by (unfold strlen in *; lia).
  pose proof (searchLoop_bracketed measureText properties Hmono full
                maxWidth (String.length full) 1 (strlen full) 3
                ltac:(lia) ltac:(lia) ltac:(lia) ltac:(intros; lia)
                ltac:(intros; lia) ltac:(intros; lia)
                ltac:(unfold strlen; lia))
    as (Hrange & Hwider & Hroom).
  set (i := searchLoop measureText (String.length full) properties full
              (XFin maxWidth) 1 (strlen full) 3) in *.
  assert (Hgoal :
           forall i', 0 <= i' <= strlen full ->
             (forall j, i' < j <= strlen full ->
                (maxWidth <= measureSvgTextWidth measureText
                               (withText properties (substr 0 j full)))%Q) ->
             strlen (substr 3 (i' - 3) full ++ dotsString)
             < strlen s <= strlen (text properties) + 3 ->
             (maxWidth
              <= measureSvgTextWidth measureText (withText properties s))%Q).
  { intros i' Hi' Hlonger Hs.
    assert (Hlen : i' <= strlen (substr 3 (i' - 3) full ++ dotsString)%string).
    { unfold strlen at 1. rewrite string_length_append.
      change (String.length dotsString) with 3%nat.
      destruct (Z_le_gt_dec i' 3) as [Hsmall | Hbig]; [ lia | ].
      pose proof (substr_length 3 (i' - 3) full ltac:(lia) ltac:(lia)
                    ltac:(lia)) as H3.
      unfold strlen in H3. lia. }
    eapply Qle_trans; [ apply (Hlonger (strlen s)); lia | ].
    apply Hmono.
    pose proof (substr_length 0 (strlen s) full ltac:(lia)
                  ltac:(unfold strlen; lia) ltac:(lia)) as H0.
    unfold strlen in *. lia. }
  unfold XNum.gtb.
  destruct (XFin maxWidth
            <? XFin (measureSvgTextWidth measureText
                       (withText properties (substr 0 i full))))%xnum
    eqn:Hcmp.
  - (* too wide at the last midpoint: so is everything from there on *)
    apply xltb_fin in Hcmp.
    apply Hgoal; try lia. intros j Hj.
    apply Qlt_le_weak. eapply Qlt_le_trans; [ exact Hcmp | ].
    apply (prefixOf_monotonic measureText properties Hmono full). lia.
  - apply xltb_fin_false in Hcmp.
    apply Hgoal; try lia. intros j Hj.
    destruct (Qlt_le_dec
                (measureSvgTextWidth measureText
                   (withText properties (substr 0 i full))) maxWidth)
      as [Hlt | Hge].
    + (* room to spare at the last midpoint: longer prefixes are too
         wide *)
      apply Qlt_le_weak. apply Hroom; [ exact Hlt | lia ].
    + (* an exact fit: longer prefixes are at least as wide *)
      eapply Qle_trans; [ exact Hge | ].
      apply (prefixOf_monotonic measureText properties Hmono full). lia.
Qed.

(** X13. The truncation cuts no more than it has to, for every width budget
    other than [NaN].  Given a text measurer that is monotonic in the
    length of the measured string, a [maxWidth] that is a number, finite
    or infinite, and a non-empty text that does not measure strictly less
    than [maxWidth], every string longer than the result, up to the
    length of the text with its marker, measures at least [maxWidth]:
    keeping one more character would not leave room to spare.  (At
    [NaN] the search stops at its first midpoint and nothing of the kind
    holds.) *)
Theorem getTailoredTextOrDefault_cuts_no_more_than_needed
  (measureText : string -> string -> Q) (properties : TextProperties)
  (maxWidth : xnum) :
  (forall s t : string,
      (String.length s <= String.length t)%nat ->
      (measureSvgTextWidth measureText (withText properties s)
       <= measureSvgTextWidth measureText (withText properties t))%Q) ->
  XNum.isNaN maxWidth = false ->
  strlen (text properties) <> 0 ->
  (XFin (measureSvgTextWidth measureText properties) <? maxWidth)%xnum
  = false ->
  forall s : string,
    strlen (getTailoredTextOrDefault measureText properties maxWidth)
    < strlen s <= strlen (text properties) + 3 ->
    (maxWidth
     <=? XFin (measureSvgTextWidth measureText (withText properties s)))%xnum
    = true.
Proof.
  intros Hmono Hnum Hne Hwide s Hs.
  destruct maxWidth as [ | | maxWidth | ];
    [ discriminate | reflexivity | | discriminate ].
  apply xltb_fin_false in Hwide. apply xleb_fin.
  now apply (cut_is_tight_finite measureText properties maxWidth).
Qed.

(** The theorem above on ["Hello World"] at 10 pixels per character in 50
    pixels: the result ["He..."] has 5 characters, and every string of 6
    characters measures 60 pixels. *)
Lemma getTailoredTextOrDefault_cuts_no_more_than_needed_witness :
  (XNum.ofZ 50
   <=? XFin
         (measureSvgTextWidth tenPixelsPerChar
            (withText (mkProps "Hello World" "Arial" "10px") "Hel...")))%xnum
  = true.
Proof.
  apply (getTailoredTextOrDefault_cuts_no_more_than_needed tenPixelsPerChar
           (mkProps "Hello World" "Arial" "10px") (XNum.ofZ 50)).
  - intros s t Hst. unfold measureSvgTextWidth, tenPixelsPerChar, strlen.
    cbn [text withText]. rewrite <- Zle_Qle. lia.
  - reflexivity.
  - discriminate.
  - reflexivity.
  - vm_compute. split; [ reflexivity | discriminate ].
Defined.

End TruncationIsTight.

(** ** More on tick values *)

Section TickValuesMore.

Local Open Scope Z_scope.

Lemma splice1_nth_error (i : nat) (l : list number) (m : nat) :
  nth_error (splice1 i l) m
  = if (m <? i)%nat then nth_error l m else nth_error l (S m).
Proof.
  unfold splice1.
  destruct (m <? i)%nat eqn:Hm.
  - apply Nat.ltb_lt in Hm.
    destruct (Nat.le_gt_cases (List.length l) m) as [Hshort | Hlong].
    + rewrite firstn_all2, skipn_all2, app_nil_r by lia. reflexivity.
    + rewrite nth_error_app1 by (rewrite length_firstn; lia).
      rewrite nth_error_firstn.
      now replace (m <? i)%nat with true by (symmetry; now apply Nat.ltb_lt).
  - apply Nat.ltb_ge in Hm.
    destruct (Nat.le_gt_cases (List.length l) i) as [Hshort | Hlong].
    + rewrite firstn_all2, skipn_all2, app_nil_r by lia.
      transitivity (@None number); [ | symmetry ];
        apply nth_error_None; lia.
    + rewrite nth_error_app2 by (rewrite length_firstn; lia).
      rewrite length_firstn, nth_error_skipn. f_equal. lia.
Qed.

Lemma spliceLoop_nth_error :
  forall fuel i (l : list number) k,
    (List.length l - i <= fuel)%nat ->
    nth_error (spliceLoop fuel i l) k
    = if (k <? i)%nat then nth_error l k else nth_error l (2 * k - i + 1).
Proof.
  assert (Hdone : forall i (l : list number) k,
             (List.length l <= i)%nat ->
             nth_error l k
             = if (k <? i)%nat then nth_error l k
               else nth_error l (2 * k - i + 1)).
  { intros i l k Hi. destruct (k <? i)%nat eqn:Hk; [ reflexivity | ].
    apply Nat.ltb_ge in Hk.
    transitivity (@None number); [ | symmetry ]; apply nth_error_None; lia. }
  induction fuel as [ | fuel IH]; intros i l k Hfuel; cbn [spliceLoop].
  - apply Hdone. lia.
  - destruct (i <? List.length l)%nat eqn:Hi.
    + apply Nat.ltb_lt in Hi.
      rewrite IH by (rewrite splice1_length; lia).
      rewrite !splice1_nth_error.
      destruct (Nat.ltb_spec k (S i)) as [Hk1 | Hk1];
        destruct (Nat.ltb_spec k i) as [Hk2 | Hk2]; try lia.
      * reflexivity.
      * assert (k = i) as -> by lia. f_equal. lia.
      * replace (2 * k - S i + 1 <? i)%nat with false
          by (symmetry; apply Nat.ltb_ge; lia).
        f_equal. lia.
    + apply Nat.ltb_ge in Hi. apply Hdone. lia.
Qed.

(** X14. One pass of the in-place splice loop keeps exactly the ticks at even
    positions: the element at position [k] of the result is the element at
    position [2k] of the list, and there is none when the list has no such
    position. *)
Theorem splicePass_keeps_even_positions (tickLabels : list number) (k : nat) :
  nth_error (splicePass tickLabels) k = nth_error tickLabels (2 * k).
Proof.
  unfold splicePass. rewrite spliceLoop_nth_error by lia.
  destruct k as [ | k]; [ reflexivity | ].
  cbn [Nat.ltb Nat.leb]. f_equal. lia.
Qed.

Lemma splicePass_head (t0 : number) (l : list number) :
  nth_error (splicePass (t0 :: l)) 0 = Some t0.
Proof. unfold splicePass. now rewrite spliceLoop_nth_error by lia. Qed.

Lemma trimLoop_head (fuel : nat) (tickInterval minInterval t0 : number)
  (l : list number) :
  nth_error (trimLoop fuel tickInterval minInterval (t0 :: l)) 0 = Some t0.
Proof.
  revert tickInterval l.
  induction fuel as [ | fuel IH]; intros tickInterval l; cbn [trimLoop];
    [ reflexivity | ].
  destruct (_ && _)%bool; [ | reflexivity ].
  pose proof (splicePass_head t0 l) as H.
  destruct (splicePass (t0 :: l)) as [ | a r]; [ discriminate | ].
  cbn in H. injection H as ->. apply IH.
Qed.

(** X15. Trimming to a minimum interval keeps the first tick and never leaves
    fewer than two ticks: of a list with at least two ticks the result
    still starts with the first one and has at least two; and with no
    usable minimum interval (absent, zero or [NaN]) the list is returned
    as it is. *)
Theorem trimToMinInterval_keeps_first_and_two (minInterval : option number)
  (t0 t1 : number) (rest : list number) :
  let result := trimToMinInterval minInterval (t0 :: t1 :: rest) in
  nth_error result 0 = Some t0
  /\ 2 <= len result
  /\ len result <= len (t0 :: t1 :: rest)
  /\ (truthyNumber minInterval = None -> result = t0 :: t1 :: rest).
Proof.
  intros result. subst result.
  pose proof (trimToMinInterval_length minInterval (t0 :: t1 :: rest)) as Hle.
  unfold trimToMinInterval in *.
  destruct (truthyNumber minInterval) as [m | ].
  - pose proof (trimLoop_head (List.length (t0 :: t1 :: rest)) (t1 - t0)%num m
                  t0 (t1 :: rest)) as Hhead.
    destruct (trimLoop _ _ _ _) as [ | a [ | b r]] eqn:Hloop.
    + discriminate.
    + cbn in Hhead. injection Hhead as ->.
      unfold len in *. cbn [List.length] in *.
      repeat split; try reflexivity; try lia. discriminate.
    + unfold len in *. cbn [List.length] in *.
      repeat split; try assumption; try lia. discriminate.
  - unfold len. cbn [List.length]. repeat split; try reflexivity; lia.
Qed.

Lemma ordinalLoop_nth_error {A : Type} (labels : list A) (step : Z) :
  1 <= step ->
  forall fuel i tickLabels k,
    0 <= i -> len labels - i <= Z.of_nat fuel ->
    nth_error (ordinalLoop fuel labels step i tickLabels) k
    = if (k <? List.length tickLabels)%nat then nth_error tickLabels k
      else
        let idx := i + Z.of_nat (k - List.length tickLabels) * step in
        if idx <? len labels then nth_error labels (Z.to_nat idx) else None.
Proof.
  intros Hstep. induction fuel as [ | fuel IH];
    intros i tickLabels k Hi Hfuel; cbn [ordinalLoop].
  - destruct (k <? List.length tickLabels)%nat eqn:Hk; [ reflexivity | ].
    apply Nat.ltb_ge in Hk. cbv zeta.
    replace (_ <? len labels) with false by (symmetry; apply Z.ltb_ge; nia).
    apply nth_error_None. lia.
  - destruct (i <? len labels) eqn:Hlt.
    + apply Z.ltb_lt in Hlt.
      destruct (pushLabel_inside labels i tickLabels ltac:(lia))
        as [label [Hlabel ->]].
      rewrite IH by lia.
      rewrite length_app. cbn [List.length].
      destruct (k <? List.length tickLabels)%nat eqn:Hk.
      * apply Nat.ltb_lt in Hk.
        replace (k <? List.length tickLabels + 1)%nat with true
          by (symmetry; apply Nat.ltb_lt; lia).
        now apply nth_error_app1.
      * apply Nat.ltb_ge in Hk. cbv zeta.
        destruct (Nat.eq_dec k (List.length tickLabels)) as [-> | Hne].
        -- replace (_ <? _ + 1)%nat with true
             by (symmetry; apply Nat.ltb_lt; lia).
           rewrite nth_error_app2, Nat.sub_diag by lia. cbn [nth_error].
           replace (i + Z.of_nat 0 * step) with i by lia.
           replace (i <? len labels) with true by (symmetry; now apply Z.ltb_lt).
           now symmetry.
        -- replace (k <? List.length tickLabels + 1)%nat with false
             by (symmetry; apply Nat.ltb_ge; lia).
           replace (i + step
                    + Z.of_nat (k - (List.length tickLabels + 1)) * step)
             with (i + Z.of_nat (k - List.length tickLabels) * step) by nia.
           reflexivity.
    + apply Z.ltb_ge in Hlt.
      destruct (k <? List.length tickLabels)%nat eqn:Hk; [ reflexivity | ].
      apply Nat.ltb_ge in Hk. cbv zeta.
      replace (_ <? len labels) with false by (symmetry; apply Z.ltb_ge; nia).
      apply nth_error_None. lia.
Qed.



(** X17. [hasNonIntegerData] holds exactly when some column of the metadata
    has a type that is not marked integer; missing columns and columns
    without a type never count, so metadata without type information is
    taken as integral. *)
Theorem hasNonIntegerData_iff
  (valuesMetadata : list (option DataViewMetadataColumn)) :
  hasNonIntegerData valuesMetadata = true
  <-> exists (column : DataViewMetadataColumn) (t : ValueType),
        In (Some column) valuesMetadata /\ type column = Some t
        /\ integer t <> Some true.
Proof.
  induction valuesMetadata as [ | currentMetadata rest IH];
    cbn [hasNonIntegerData].
  - split; [ discriminate | intros (c & t & [] & _) ].
  - assert (Hrest :
              (exists c t, In (Some c) rest /\ type c = Some t
                           /\ integer t <> Some true) ->
              exists c t, In (Some c) (currentMetadata :: rest)
                          /\ type c = Some t /\ integer t <> Some true).
    { intros (c & t & Hin & Ht & Hi). exists c, t.
      split; [ now right | now split ]. }
    destruct currentMetadata as [ [ [ [ [ [ | ] | ] ] | ] ] | ];
      cbn [type integer truthy negb].
    + (* an integer column *)
      rewrite IH. split; [ exact Hrest | ].
      intros (c & t & [Heq | Hin] & Ht & Hi); [ | eauto ].
      injection Heq as <-. cbn in Ht. injection Ht as <-. now cbn in Hi.
    + (* a column marked as not integer *)
      split; [ intros _ | reflexivity ].
      do 2 eexists. split; [ left; reflexivity | ].
      split; [ reflexivity | discriminate ].
    + (* a typed column with [integer] unset *)
      split; [ intros _ | reflexivity ].
      do 2 eexists. split; [ left; reflexivity | ].
      split; [ reflexivity | discriminate ].
    + (* a column without a type *)
      rewrite IH. split; [ exact Hrest | ].
      intros (c & t & [Heq | Hin] & Ht & Hi); [ | eauto ].
      injection Heq as <-. discriminate.
    + (* a missing column *)
      rewrite IH. split; [ exact Hrest | ].
      intros (c & t & [Heq | Hin] & Ht & Hi); [ discriminate | eauto ].
Qed.

End TickValuesMore.

(** ** Numbers that stay numbers *)

Section NoNaN.

Local Open Scope Z_scope.

Lemma shr_1_nonneg (mrs : shr_record) :
  0 <= shr_m mrs -> 0 <= shr_m (shr_1 mrs).
Proof.
  destruct mrs as [m r s]. cbn [shr_m].
  destruct m as [ | [p | p | ] | p]; cbn; lia.
Qed.

Lemma iter_shr_1_nonneg (p : positive) :
  forall mrs, 0 <= shr_m mrs -> 0 <= shr_m (iter_pos shr_1 p mrs).
Proof.
  induction p as [p IH | p IH | ]; intros mrs Hm; cbn [iter_pos];
    auto using shr_1_nonneg.
Qed.

Lemma shr_fexp_nonneg (m e : Z) (l : location) :
  0 <= m -> 0 <= shr_m (fst (shr_fexp prec emax m e l)).
Proof.
  intros Hm. unfold shr_fexp, shr.
  assert (H0 : 0 <= shr_m (shr_record_of_loc m l))
    by (destruct l as [ | [ | | ]]; exact Hm).
  destruct (fexp prec emax (Zdigits2 m + e) - e);
    cbn [fst]; auto using iter_shr_1_nonneg.
Qed.

Lemma round_nearest_even_nonneg (m : Z) (l : location) :
  0 <= m -> 0 <= round_nearest_even m l.
Proof.
  intros Hm. unfold round_nearest_even.
  destruct l as [ | [ | | ]]; try destruct (Z.even m); lia.
Qed.

(** Rounding a non-negative mantissa never gives [NaN]. *)
Lemma binary_round_aux_is_number (s : bool) (m e : Z) (l : location) :
  0 <= m -> isNaN (binary_round_aux prec emax s m e l) = false.
Proof.
  intros Hm. unfold binary_round_aux.
  pose proof (shr_fexp_nonneg m e l Hm) as H1.
  destruct (shr_fexp prec emax m e l) as [mrs' e']. cbn [fst] in H1.
  pose proof (shr_fexp_nonneg
                (round_nearest_even (shr_m mrs') (loc_of_shr_record mrs'))
                e' loc_Exact (round_nearest_even_nonneg _ _ H1)) as H2.
  destruct (shr_fexp prec emax _ e' loc_Exact) as [mrs'' e''].
  cbn [fst] in H2.
  destruct (shr_m mrs'') as [ | p | p]; [ reflexivity | | lia ].
  now destruct (e'' <=? emax - prec).
Qed.

(** Multiplying a number by a finite number other than zero gives a
    number. *)
Lemma mul_finite_is_number (x : number) (s : bool) (m : positive) (e : Z) :
  isNaN x = false -> isNaN (x * S754_finite s m e)%num = false.
Proof.
  destruct x as [sx | sx | | sx mx ex]; intros Hx; try discriminate;
    try reflexivity.
  apply binary_round_aux_is_number. lia.
Qed.

(** X18. [normalizeLinearDomain] never returns a [NaN] bound, whatever domain
    it is given: not-a-number bounds are replaced, and the widening of a
    degenerate domain cannot produce one. *)
Theorem normalizeLinearDomain_has_number_bounds (d : NumberRange) :
  isNaN (min (normalizeLinearDomain d)) = false
  /\ isNaN (max (normalizeLinearDomain d)) = false.
Proof.
  unfold normalizeLinearDomain.
  destruct (isNaN (min d) || isNaN (max d))%bool eqn:Hnan;
    [ split; reflexivity | ].
  apply orb_false_elim in Hnan. destruct Hnan as [Hmin Hmax].
  destruct (_ && _)%bool; [ split; [ assumption | reflexivity ] | ].
  destruct (min d === max d)%num.
  - cbn [min max].
    change (lit 12 10) with (S754_finite false 5404319552844595 (-52)).
    change (lit 8 10) with (S754_finite false 7205759403792794 (-53)).
    split; match goal with
           | |- context [if ?c then _ else _] => destruct c
           end; now apply mul_finite_is_number.
  - destruct (_ && _)%bool; cbn [min max]; split;
      try assumption; reflexivity.
Qed.

(** X19. Normalizing a non-finite number is idempotent: a number it returns is
    returned unchanged when normalized again. *)
Theorem normalizeNonFiniteNumber_idempotent (value r : number) :
  normalizeNonFiniteNumber value = Some r ->
  normalizeNonFiniteNumber r = Some r.
Proof.
  destruct value as [s | [ | ] | | s m e]; cbn; intros H;
    try discriminate; injection H as <-; reflexivity.
Qed.

(** The theorem above at positive infinity. *)
Lemma normalizeNonFiniteNumber_idempotent_witness :
  normalizeNonFiniteNumber MAX_VALUE = Some MAX_VALUE.
Proof.
  apply (normalizeNonFiniteNumber_idempotent POSITIVE_INFINITY MAX_VALUE).
  reflexivity.
Defined.

End NoNaN.

(** ** FunnelChart: sparklines hide the percent bars *)

Section FunnelSpace.

Import FunnelChart.
Local Open Scope Z_scope.

(** Rounding a non-negative mantissa gives a zero, a finite number or an
    infinity of the sign asked for. *)
Lemma binary_round_aux_sign (s : bool) (m e : Z) (l : location) :
  0 <= m ->
  binary_round_aux prec emax s m e l = S754_zero s
  \/ (exists m' e', binary_round_aux prec emax s m e l = S754_finite s m' e')
  \/ binary_round_aux prec emax s m e l = S754_infinity s.
Proof.
  intros Hm. unfold binary_round_aux.
  pose proof (shr_fexp_nonneg m e l Hm) as H1.
  destruct (shr_fexp prec emax m e l) as [mrs' e']. cbn [fst] in H1.
  pose proof (shr_fexp_nonneg
                (round_nearest_even (shr_m mrs') (loc_of_shr_record mrs'))
                e' loc_Exact (round_nearest_even_nonneg _ _ H1)) as H2.
  destruct (shr_fexp prec emax _ e' loc_Exact) as [mrs'' e''].
  cbn [fst] in H2.
  destruct (shr_m mrs'') as [ | p | p]; [ now left | | lia ].
  destruct (e'' <=? emax - prec); [ right; left; eauto | now right; right ].
Qed.

(** Taking a positive finite number off a number that is at most 0 leaves
    a number that is at most 0. *)
Lemma sub_positive_stays_nonpositive (u : number) (m : positive) (e : Z) :
  (u <=? ofZ 0)%num = true ->
  (u - S754_finite false m e <=? ofZ 0)%num = true.
Proof.
  destruct u as [su | [ | ] | | [ | ] mu eu]; intros Hu; try discriminate;
    try reflexivity.
  unfold sub, SFsub, cond_Zopp. cbv zeta.
  match goal with
  | |- context [binary_normalize _ _ (- Z.pos ?a - Z.pos ?b) ?ez _] =>
      change (- Z.pos a - Z.pos b) with (Z.neg (a + b));
      generalize (a + b)%positive; generalize ez
  end.
  intros ez q. unfold binary_normalize, binary_round.
  destruct (shl_align q ez _) as [mz ez'].
  destruct (binary_round_aux_sign true (Z.pos mz) ez' loc_Exact ltac:(lia))
    as [-> | [(m' & e' & ->) | ->]]; reflexivity.
Qed.

(** X20. When the funnel has no usable vertical space and falls back to
    sparklines, the percent bars are hidden as well: [isSparklines]
    implies [isHidingPercentBars]. *)
Theorem isSparklines_implies_isHidingPercentBars (this : FunnelView) :
  isSparklines this = true -> isHidingPercentBars this = true.
Proof.
  unfold isSparklines, isHidingPercentBars. cbv zeta.
  change (ofZ 2 * MinBarThickness * PercentBarToBarRatio)%num
    with (S754_finite false 6755399441055744 (-47)).
  apply sub_positive_stays_nonpositive.
Qed.

(** The theorem above for a viewport 100 high with margins 10 and 10 and
    eight categories: 80 - 96 leaves no usable space. *)
Lemma isSparklines_implies_isHidingPercentBars_witness :
  isHidingPercentBars
    (mkFunnelView (ofZ 100) (ofZ 10) (ofZ 10)
       ["a"; "b"; "c"; "d"; "e"; "f"; "g"; "h"]%string) = true.
Proof.
  apply isSparklines_implies_isHidingPercentBars. reflexivity.
Defined.

End FunnelSpace.
